(** * Speculative image upload: the admin widgets and editors

    A shallow embedding of the four React components of the repository:

    - [ImageUpload]        : src/components/Admin/ImageUpload.tsx
    - [ImageUploadTabs]    : the tabbed ImageUpload (URL / upload tabs, [localImageFile])
    - [RichTextEditor]     : src/components/Admin/RichTextEditor.tsx ([uploadedImages] map)
    - [RichTextEditorImg]  : the editor with image selection, resize and alignment

    Event handlers are written in a small state / exception / trace monad so
    that each definition reads like the TypeScript it embeds.  The platform
    (URL.createObjectURL, fetch, toast, the change callback) is observed through
    a trace of effects; what the platform answers (the blob URL handed out, the
    way the request settles) is an argument of the handler. *)

From Stdlib Require Import String Ascii List Bool Arith Lia.
Import ListNotations.
Open Scope string_scope.

(** ** JavaScript strings *)

Module JS.

(** A run-time value of a binding typed [string] in the sources: the
    components never check what the server sent, so [undefined] can flow
    where the type says [string]. *)
Inductive value : Type :=
| Undefined
| Str (s : string).

(** ToBoolean. *)
Definition truthy (v : value) : bool :=
  match v with
  | Undefined => false
  | Str s => negb (String.eqb s EmptyString)
  end.

(** ToString, as applied by template literals and by String.prototype.replace. *)
Definition ToString (v : value) : string :=
  match v with
  | Undefined => "undefined"
  | Str s => s
  end.

(** [s.startsWith(p)] *)
Definition startsWith (s p : string) : bool := String.prefix p s.

(** [v && v.startsWith('blob:')] *)
Definition value_eqb (v w : value) : bool :=
  match v, w with
  | Undefined, Undefined => true
  | Str a, Str b => String.eqb a b
  | _, _ => false
  end.

Definition isBlob (v : value) : bool :=
  match v with
  | Undefined => false
  | Str s => truthy v && startsWith s "blob:"
  end.

Fixpoint drop (n : nat) (s : string) : string :=
  match n, s with
  | O, _ => s
  | S n', String _ s' => drop n' s'
  | S _, EmptyString => EmptyString
  end.

(** [includes s pat]: [pat] occurs somewhere in [s]. *)
Fixpoint includes (s pat : string) : bool :=
  String.prefix pat s ||
  match s with
  | EmptyString => false
  | String _ s' => includes s' pat
  end.

(** Number of positions of [s] at which [pat] starts. *)
Fixpoint occurrences (s pat : string) : nat :=
  (if String.prefix pat s then 1 else 0) +
  match s with
  | EmptyString => 0
  | String _ s' => occurrences s' pat
  end.

(** The first occurrence of [pat] in [s], as the text before it and the
    text after it (StringIndexOf from position 0). *)
Fixpoint split_first (s pat : string) : option (string * string) :=
  if String.prefix pat s then Some (EmptyString, drop (String.length pat) s)
  else match s with
       | EmptyString => None
       | String c s' =>
           match split_first s' pat with
           | Some (before, after) => Some (String c before, after)
           | None => None
           end
       end.

(** GetSubstitution for a match without capture groups: [$$], [$&],
    [$`] and [$'] are expanded, every other character (also [$1], [$<])
    is copied. *)
Fixpoint GetSubstitution (matched before after template : string) : string :=
  match template with
  | EmptyString => EmptyString
  | String c rest =>
      if Ascii.eqb c "$" then
        match rest with
        | EmptyString => String c EmptyString
        | String d rest' =>
            if Ascii.eqb d "$" then String "$" (GetSubstitution matched before after rest')
            else if Ascii.eqb d "&" then matched ++ GetSubstitution matched before after rest'
            else if Ascii.eqb d "`" then before ++ GetSubstitution matched before after rest'
            else if Ascii.eqb d "'" then after ++ GetSubstitution matched before after rest'
            else String c (GetSubstitution matched before after rest)
        end
      else String c (GetSubstitution matched before after rest)
  end.

(** [s.replace(pat, replaceValue)] with a string pattern: only the first
    occurrence is replaced. *)
Definition replace (s pat : string) (replaceValue : value) : string :=
  match split_first s pat with
  | None => s
  | Some (before, after) =>
      before ++ GetSubstitution pat before after (ToString replaceValue) ++ after
  end.

(** *** [new RegExp(source, 'g')] on the sources a blob URL gives

    A blob URL is [blob:] followed by an origin, a slash and a UUID: over
    letters, digits, [:], [/], [-] and [.].  Of these only [.] is a pattern
    character (any character but a line terminator); a source with another
    pattern character is outside the fragment modelled here. *)
Inductive atom : Type :=
| Lit (c : ascii)
| AnyChar.

Definition syntax_character (c : ascii) : bool :=
  existsb (Ascii.eqb c)
    (list_ascii_of_string "\^$*+?()[]{}|").

Fixpoint RegExp (source : string) : option (list atom) :=
  match source with
  | EmptyString => Some []
  | String c rest =>
      if syntax_character c then None
      else match RegExp rest with
           | None => None
           | Some p => Some ((if Ascii.eqb c "." then AnyChar else Lit c) :: p)
           end
  end.

Definition line_terminator (c : ascii) : bool :=
  Ascii.eqb c "010" || Ascii.eqb c "013".

Definition atom_matches (a : atom) (c : ascii) : bool :=
  match a with
  | Lit d => Ascii.eqb d c
  | AnyChar => negb (line_terminator c)
  end.

(** The pattern matches at the start of [s]. *)
Fixpoint match_here (p : list atom) (s : string) : bool :=
  match p, s with
  | [], _ => true
  | a :: p', String c s' => atom_matches a c && match_here p' s'
  | _ :: _, EmptyString => false
  end.

Fixpoint take (n : nat) (s : string) : string :=
  match n, s with
  | O, _ => EmptyString
  | S n', String c s' => String c (take n' s')
  | S _, EmptyString => EmptyString
  end.

(** The scan of RegExp.prototype[Symbol.replace] with the global flag:
    leftmost matches, not overlapping; [skip] characters still belong to
    the match found last, [before] is the subject up to the current
    position. *)
Fixpoint replace_scan (p : list atom) (template before : string) (skip : nat)
         (s : string) : string :=
  match s with
  | EmptyString =>
      if Nat.eqb skip 0 && match_here p s
      then GetSubstitution EmptyString before EmptyString template
      else EmptyString
  | String c s' =>
      match skip with
      | S k => replace_scan p template (before ++ String c EmptyString) k s'
      | O =>
          if match_here p s then
            let n := List.length p in
            GetSubstitution (take n s) before (drop n s) template ++
            match n with
            | O => String c (replace_scan p template (before ++ String c EmptyString) 0 s')
            | S k => replace_scan p template (before ++ String c EmptyString) k s'
            end
          else String c (replace_scan p template (before ++ String c EmptyString) 0 s')
      end
  end.

(** [s.replace(new RegExp(source, 'g'), replaceValue)]; [None] when the
    source leaves the fragment. *)
Definition replace_RegExp_g (s source : string) (replaceValue : value) : option string :=
  match RegExp source with
  | None => None
  | Some p => Some (replace_scan p (ToString replaceValue) EmptyString 0 s)
  end.

End JS.

(** ** The platform: files, responses, effects *)

(** A [File] picked or dropped by the user (its name stands for it). *)
Definition File : Type := string.

(** What [response.json()] gives: it rejects, or resolves to an object
    whose [url] property has the given value ([Undefined] when absent). *)
Inductive json : Type :=
| bad_json
| data (url : JS.value).

(** How [await fetch(...)] settles: the promise rejects (network failure)
    or resolves to a response with its [ok] flag and body. *)
Inductive fetch_result : Type :=
| rejected
| response (ok : bool) (body : json).

(** The toasts of the four components. *)
Inductive toast_kind : Type :=
| UploadDone        (* 'Upload concluido!' *)
| UploadError       (* 'Erro no upload', destructive *)
| SendingImage      (* 'Enviando imagem...' *)
| ImageSent         (* 'Imagem enviada com sucesso!' *)
| ImageUploadError  (* 'Erro no upload da imagem', destructive *).


(** What a handler does to the world outside its component state, in
    program order. *)
Inductive effect : Type :=
| URL_createObjectURL (file : File) (blobUrl : string)
| URL_revokeObjectURL (url : JS.value)
| fetch_upload (file : File)
| call_onChange (v : JS.value)
| call_toast (t : toast_kind)
| preview_set (v : JS.value)       (* the widget's preview reference was set *)
| image_inserted (src : string)    (* an img with this src entered the document *).

Definition trace : Type := list effect.

Definition is_revoke (u : string) (e : effect) : bool :=
  match e with
  | URL_revokeObjectURL (JS.Str s) => String.eqb s u
  | _ => false
  end.

Definition is_create (u : string) (e : effect) : bool :=
  match e with
  | URL_createObjectURL _ s => String.eqb s u
  | _ => false
  end.

Definition is_fetch (e : effect) : bool :=
  match e with fetch_upload _ => true | _ => false end.

Definition is_toast (e : effect) : bool :=
  match e with call_toast _ => true | _ => false end.


(** The values handed to the change callback, in order. *)
Fixpoint notified (t : trace) : list JS.value :=
  match t with
  | [] => []
  | call_onChange v :: t' => v :: notified t'
  | _ :: t' => notified t'
  end.

Definition count (f : effect -> bool) (t : trace) : nat :=
  List.length (filter f t).

(** ** The handler monad: component state, exceptions, effect trace *)

(** How a handler ends: it returns, it throws, or it reaches platform
    behaviour this development does not model (a RegExp source outside the
    fragment of [JS.RegExp]). *)
Inductive completion (A : Type) : Type :=
| normal (a : A)
| thrown
| unmodelled.
Arguments normal {A} a.
Arguments thrown {A}.
Arguments unmodelled {A}.

Definition M (S A : Type) : Type := S -> completion A * S * trace.

Section HandlerMonad.
Context {S : Type}.

Definition ret {A} (a : A) : M S A := fun s => (normal a, s, []).

Definition bind {A B} (m : M S A) (k : A -> M S B) : M S B :=
  fun s =>
    match m s with
    | (normal a, s', t) =>
        let '(r, s'', t') := k a s' in (r, s'', (t ++ t')%list)
    | (thrown, s', t) => (thrown, s', t)
    | (unmodelled, s', t) => (unmodelled, s', t)
    end.

Definition emit (e : effect) : M S unit := fun s => (normal tt, s, [e]).

Definition modify (f : S -> S) : M S unit := fun s => (normal tt, f s, []).

Definition get : M S S := fun s => (normal s, s, []).

(** [throw new Error(...)] *)
Definition throw {A} : M S A := fun s => (thrown, s, []).

Definition outside_model {A} : M S A := fun s => (unmodelled, s, []).

(** [try { m } catch (error) { h }] *)
Definition try_catch {A} (m h : M S A) : M S A :=
  fun s =>
    match m s with
    | (thrown, s', t) => let '(r, s'', t') := h s' in (r, s'', (t ++ t')%list)
    | other => other
    end.

(** [try { m } finally { f }] *)
Definition try_finally {A} (m : M S A) (f : M S unit) : M S A :=
  fun s =>
    let '(r, s', t) := m s in
    match f s' with
    | (normal _, s'', t') => (r, s'', (t ++ t')%list)
    | (thrown, s'', t') => (thrown, s'', (t ++ t')%list)
    | (unmodelled, s'', t') => (unmodelled, s'', (t ++ t')%list)
    end.

(** [if (c) { m }] *)
Definition when (c : bool) (m : M S unit) : M S unit :=
  if c then m else ret tt.

(** [await fetch(`${apiClient.baseURL}/upload`, { method: 'POST', ... })]:
    the request is issued and the handler is suspended; [meanwhile] is
    what the component does for other events until the request settles
    (their completions stay with them); a rejected promise is thrown at
    the [await]. *)
Definition await_fetch (file : File) (meanwhile : M S unit) (r : fetch_result)
  : M S (bool * json) :=
  fun s =>
    let '(_, s', t) := meanwhile s in
    match r with
    | rejected => (thrown, s', fetch_upload file :: t)
    | response ok body => (normal (ok, body), s', fetch_upload file :: t)
    end.

(** No other event is handled while the request is outstanding. *)
Definition idle : M S unit := ret tt.

(** [await response.json()] followed by reading [data.url]. *)
Definition await_json_url (body : json) : M S JS.value :=
  match body with
  | bad_json => throw
  | data url => ret url
  end.

End HandlerMonad.

Declare Scope js_scope.
Delimit Scope js_scope with js.
Notation "x <- m ;; k" := (bind m (fun x => k))
  (at level 61, m at next level, right associativity) : js_scope.
Notation "m ;; k" := (bind m (fun _ => k))
  (at level 61, right associativity) : js_scope.

Definition final_state {S A} (r : completion A * S * trace) : S := snd (fst r).
Definition effects {S A} (r : completion A * S * trace) : trace := snd r.
Definition result {S A} (r : completion A * S * trace) : completion A := fst (fst r).

Local Open Scope js_scope.

(** ** ImageUpload.tsx: URL field, dropzone and preview *)

Module ImageUpload.

Record state : Type := mkState {
  uploading : bool;
  urlInput : JS.value;
  previewUrl : JS.value
}.

(** [useState(false)], [useState(value)], [useState<string>(value)] *)
Definition initial (value : JS.value) : state :=
  {| uploading := false; urlInput := value; previewUrl := value |}.

Definition setUploading (b : bool) : M state unit :=
  modify (fun s => mkState b (urlInput s) (previewUrl s)).

Definition setUrlInput (v : JS.value) : M state unit :=
  modify (fun s => mkState (uploading s) v (previewUrl s)).

Definition setPreviewUrl (v : JS.value) : M state unit :=
  modify (fun s => mkState (uploading s) (urlInput s) v) ;;
  emit (preview_set v).

(** [useEffect(() => { if (value) {...} }, [value])] *)
Definition valueEffect (value : JS.value) : M state unit :=
  when (JS.truthy value)
    (setPreviewUrl value ;;
     setUrlInput value).

(** [onDrop]; [value] is the prop of the render whose closure runs,
    [blobUrl] what URL.createObjectURL returns, [meanwhile] what happens
    in the component while the request is outstanding, [settle] how the
    request settles. *)
Definition onDrop (value : JS.value) (acceptedFiles : list File)
           (blobUrl : string) (meanwhile : M state unit) (settle : fetch_result)
  : M state unit :=
  match acceptedFiles with
  | [] => ret tt
  | file :: _ =>
      emit (URL_createObjectURL file blobUrl) ;;
      setPreviewUrl (JS.Str blobUrl) ;;
      setUploading true ;;
      try_finally
        (try_catch
           (r <- await_fetch file meanwhile settle ;;
            if fst r then
              serverUrl <- await_json_url (snd r) ;;
              setUrlInput serverUrl ;;
              setPreviewUrl serverUrl ;;
              emit (call_onChange serverUrl) ;;
              emit (URL_revokeObjectURL (JS.Str blobUrl)) ;;
              emit (call_toast UploadDone)
            else
              emit (URL_revokeObjectURL (JS.Str blobUrl)) ;;
              setPreviewUrl value ;;
              throw)
           (emit (URL_revokeObjectURL (JS.Str blobUrl)) ;;
            setPreviewUrl value ;;
            emit (call_toast UploadError)))
        (setUploading false)
  end.

(** The component while [onDrop] waits for the request. *)
Definition suspended (s : state) (blobUrl : string) : state :=
  mkState true (urlInput s) (JS.Str blobUrl).

Definition handleUrlChange (url : string) : M state unit :=
  setUrlInput (JS.Str url) ;;
  setPreviewUrl (JS.Str url) ;;
  emit (call_onChange (JS.Str url)).

(** [clearImage] reads [previewUrl] from the render it was created in. *)
Definition clearImage (rendered : state) : M state unit :=
  when (JS.isBlob (previewUrl rendered))
    (emit (URL_revokeObjectURL (previewUrl rendered))) ;;
  emit (call_onChange (JS.Str EmptyString)) ;;
  setUrlInput (JS.Str EmptyString) ;;
  setPreviewUrl (JS.Str EmptyString).

(** The cleanup function of [useEffect(..., [previewUrl])]. *)
Definition cleanup (rendered : state) : trace :=
  if JS.isBlob (previewUrl rendered)
  then [URL_revokeObjectURL (previewUrl rendered)]
  else [].

(** React runs the cleanup of the previous render when the dependency
    changed, and once more when the component goes away. *)
Definition rerender (rendered next : state) : trace :=
  if JS.value_eqb (previewUrl rendered) (previewUrl next) then [] else cleanup rendered.

Definition unmount (rendered : state) : trace := cleanup rendered.

End ImageUpload.

(** ** The tabbed ImageUpload: URL tab, upload tab, [localImageFile] *)

Module ImageUploadTabs.

Inductive tab : Type := url_tab | upload_tab.

Record state : Type := mkState {
  uploading : bool;
  urlInput : JS.value;
  previewUrl : JS.value;
  localImageFile : option File;
  activeTab : tab
}.

(** [useState(false)], [useState('')], [useState<string>('')],
    [useState<File | null>(null)], [useState('url')] *)
Definition initial : state :=
  {| uploading := false; urlInput := JS.Str EmptyString; previewUrl := JS.Str EmptyString;
     localImageFile := None; activeTab := url_tab |}.

Definition setUploading (b : bool) : M state unit :=
  modify (fun s => mkState b (urlInput s) (previewUrl s) (localImageFile s) (activeTab s)).

Definition setUrlInput (v : JS.value) : M state unit :=
  modify (fun s => mkState (uploading s) v (previewUrl s) (localImageFile s) (activeTab s)).

Definition setPreviewUrl (v : JS.value) : M state unit :=
  modify (fun s => mkState (uploading s) (urlInput s) v (localImageFile s) (activeTab s)) ;;
  emit (preview_set v).

Definition setLocalImageFile (f : option File) : M state unit :=
  modify (fun s => mkState (uploading s) (urlInput s) (previewUrl s) f (activeTab s)).

Definition setActiveTab (t : tab) : M state unit :=
  modify (fun s => mkState (uploading s) (urlInput s) (previewUrl s) (localImageFile s) t).

Definition valueEffect (value : JS.value) : M state unit :=
  when (JS.truthy value)
    (setPreviewUrl value ;;
     setUrlInput value ;;
     setActiveTab url_tab).

Definition onDrop (acceptedFiles : list File)
           (blobUrl : string) (meanwhile : M state unit) (settle : fetch_result)
  : M state unit :=
  match acceptedFiles with
  | [] => ret tt
  | file :: _ =>
      emit (URL_createObjectURL file blobUrl) ;;
      setPreviewUrl (JS.Str blobUrl) ;;
      setLocalImageFile (Some file) ;;
      emit (call_onChange (JS.Str blobUrl)) ;;
      setUploading true ;;
      try_finally
        (try_catch
           (r <- await_fetch file meanwhile settle ;;
            if fst r then
              serverUrl <- await_json_url (snd r) ;;
              emit (call_onChange serverUrl) ;;
              emit (call_toast UploadDone)
            else
              emit (URL_revokeObjectURL (JS.Str blobUrl)) ;;
              setPreviewUrl (JS.Str EmptyString) ;;
              setLocalImageFile None ;;
              emit (call_onChange (JS.Str EmptyString)) ;;
              throw)
           (emit (URL_revokeObjectURL (JS.Str blobUrl)) ;;
            setPreviewUrl (JS.Str EmptyString) ;;
            setLocalImageFile None ;;
            emit (call_onChange (JS.Str EmptyString)) ;;
            emit (call_toast UploadError)))
        (setUploading false)
  end.

(** The component while [onDrop] waits for the request. *)
Definition suspended (s : state) (file : File) (blobUrl : string) : state :=
  mkState true (urlInput s) (JS.Str blobUrl) (Some file) (activeTab s).

(** [handleUrlChange] reads [localImageFile] and [previewUrl] from the
    render it was created in. *)
Definition handleUrlChange (rendered : state) (url : string) : M state unit :=
  setUrlInput (JS.Str url) ;;
  setPreviewUrl (JS.Str url) ;;
  emit (call_onChange (JS.Str url)) ;;
  match localImageFile rendered with
  | Some _ =>
      emit (URL_revokeObjectURL (previewUrl rendered)) ;;
      setLocalImageFile None
  | None => ret tt
  end.

Definition clearImage (rendered : state) : M state unit :=
  when (JS.isBlob (previewUrl rendered))
    (emit (URL_revokeObjectURL (previewUrl rendered))) ;;
  emit (call_onChange (JS.Str EmptyString)) ;;
  setUrlInput (JS.Str EmptyString) ;;
  setPreviewUrl (JS.Str EmptyString) ;;
  setLocalImageFile None.

Definition cleanup (rendered : state) : trace :=
  if JS.isBlob (previewUrl rendered)
  then [URL_revokeObjectURL (previewUrl rendered)]
  else [].

Definition rerender (rendered next : state) : trace :=
  if JS.value_eqb (previewUrl rendered) (previewUrl next) then [] else cleanup rendered.

Definition unmount (rendered : state) : trace := cleanup rendered.

End ImageUploadTabs.

(** ** The editable document *)

Module DOM.

(** An attribute value, kept structured where the sources reach it
    through [classList] and [style]; attributes keep their order. *)
Inductive attr_value : Type :=
| plain (v : string)
| tokens (l : list string)                   (* class *)
| declarations (l : list (string * string))  (* style *).

(** An element without its children; [ident] is the identity of the
    DOM object (what [===] on nodes compares), not an attribute. *)
Record element : Type := mkElement {
  ident : nat;
  tagName : string;
  attributes : list (string * attr_value)
}.

Local Unset Elimination Schemes.
Inductive node : Type :=
| Text (data : string)
| Elem (e : element) (childNodes : list node).
Local Set Elimination Schemes.

Fixpoint node_ind (P : node -> Prop)
         (HText : forall d, P (Text d))
         (HElem : forall e cs, Forall P cs -> P (Elem e cs))
         (n : node) : P n :=
  match n with
  | Text d => HText d
  | Elem e cs =>
      HElem e cs
        ((fix all (l : list node) : Forall P l :=
            match l with
            | [] => Forall_nil P
            | c :: l' => Forall_cons c (node_ind P HText HElem c) (all l')
            end) cs)
  end.

(** *** Attributes *)

Fixpoint lookup {A} (k : string) (l : list (string * A)) : option A :=
  match l with
  | [] => None
  | (k', v) :: l' => if String.eqb k k' then Some v else lookup k l'
  end.

(** Set in place when present, append otherwise. *)
Fixpoint assoc_set {A} (k : string) (v : A) (l : list (string * A)) : list (string * A) :=
  match l with
  | [] => [(k, v)]
  | (k', v') :: l' =>
      if String.eqb k k' then (k', v) :: l' else (k', v') :: assoc_set k v l'
  end.

Definition with_attributes (e : element) (a : list (string * attr_value)) : element :=
  mkElement (ident e) (tagName e) a.

(** [e.setAttribute(name, v)] *)
Definition setAttribute (name v : string) (e : element) : element :=
  with_attributes e (assoc_set name (plain v) (attributes e)).

(** [e.style.prop = v] *)
Definition style_set (prop v : string) (e : element) : element :=
  let old := match lookup "style" (attributes e) with
             | Some (declarations l) => l
             | _ => []
             end in
  with_attributes e (assoc_set "style" (declarations (assoc_set prop v old)) (attributes e)).

Definition classes (e : element) : list string :=
  match lookup "class" (attributes e) with
  | Some (tokens l) => l
  | _ => []
  end.

Definition contains (c : string) (e : element) : bool :=
  existsb (String.eqb c) (classes e).

(** [e.classList.add(c)] *)
Definition classList_add (c : string) (e : element) : element :=
  if contains c e then e
  else with_attributes e (assoc_set "class" (tokens (classes e ++ [c])%list) (attributes e)).

(** [e.classList.remove(c)]: the attribute stays, possibly empty. *)
Definition classList_remove (c : string) (e : element) : element :=
  match lookup "class" (attributes e) with
  | Some (tokens l) =>
      with_attributes e
        (assoc_set "class" (tokens (filter (fun t => negb (String.eqb c t)) l)) (attributes e))
  | _ => e
  end.

Definition is_img (e : element) : bool := String.eqb (tagName e) "img".

(** The selector [img[src="u"]]. *)
Definition img_with_src (u : string) (e : element) : bool :=
  is_img e &&
  match lookup "src" (attributes e) with
  | Some (plain v) => String.eqb v u
  | _ => false
  end.

(** *** Trees *)

(** Apply [f] to every element for which [sel] holds
    ([querySelectorAll(sel).forEach(f)] for an [f] that edits in place). *)
Fixpoint forEach (sel : element -> bool) (f : element -> element) (n : node) : node :=
  match n with
  | Text d => Text d
  | Elem e cs => Elem (if sel e then f e else e) (map (forEach sel f) cs)
  end.

Definition selected_by (sel : element -> bool) (n : node) : bool :=
  match n with
  | Text _ => false
  | Elem e _ => sel e
  end.

(** [querySelectorAll(sel).forEach(n => n.remove())] *)
Fixpoint remove (sel : element -> bool) (n : node) : node :=
  match n with
  | Text d => Text d
  | Elem e cs =>
      Elem e ((fix among (l : list node) : list node :=
                 match l with
                 | [] => []
                 | c :: l' =>
                     if selected_by sel c then among l' else remove sel c :: among l'
                 end) cs)
  end.

Fixpoint remove_all (sel : element -> bool) (doc : list node) : list node :=
  match doc with
  | [] => []
  | c :: doc' =>
      if selected_by sel c then remove_all sel doc' else remove sel c :: remove_all sel doc'
  end.

(** The nodes of a subtree in document order, each without its children:
    an element or the data of a text node. *)
Fixpoint nodes (n : node) : list (element + string) :=
  match n with
  | Text d => [inr d]
  | Elem e cs => inl e :: flat_map nodes cs
  end.

Definition nodes_all (doc : list node) : list (element + string) := flat_map nodes doc.

Definition not_selected (sel : element -> bool) (x : element + string) : bool :=
  match x with
  | inl e => negb (sel e)
  | inr _ => true
  end.

(** The elements selected by [sel] have no children (as [img] elements). *)
Fixpoint childless (sel : element -> bool) (n : node) : bool :=
  match n with
  | Text _ => true
  | Elem e cs =>
      (if sel e then match cs with [] => true | _ :: _ => false end else true)
      && forallb (childless sel) cs
  end.

(** Number of elements of the subtree selected by [sel]. *)
Fixpoint count (sel : element -> bool) (n : node) : nat :=
  match n with
  | Text _ => 0
  | Elem e cs => (if sel e then 1 else 0) + list_sum (map (count sel) cs)
  end.

Definition count_all (sel : element -> bool) (doc : list node) : nat :=
  list_sum (map (count sel) doc).

(** Identities of the elements of a subtree, in document order. *)
Fixpoint idents (n : node) : list nat :=
  match n with
  | Text _ => []
  | Elem e cs => ident e :: flat_map idents cs
  end.

Definition idents_all (doc : list node) : list nat := flat_map idents doc.

(** *** The caret *)

(** A boundary point below the editor root: between two children, inside
    a text child, or further down inside an element child. *)
Inductive position : Type :=
| at_child (offset : nat)
| in_text (child offset : nat)
| in_child (child : nat) (p : position).

(** [range.insertNode(n)] for a collapsed range at [p]; a text node is
    split around the new node.  [None]: [p] is no point of this tree. *)
Fixpoint insertNode (p : position) (n : node) (nodes : list node) : option (list node) :=
  match p with
  | at_child k =>
      if Nat.leb k (List.length nodes)
      then Some (firstn k nodes ++ n :: skipn k nodes)%list
      else None
  | in_text i k =>
      match nth_error nodes i with
      | Some (Text d) =>
          if Nat.leb k (String.length d)
          then Some (firstn i nodes ++ Text (JS.take k d) :: n :: Text (JS.drop k d)
                       :: skipn (S i) nodes)%list
          else None
      | _ => None
      end
  | in_child i p' =>
      match nth_error nodes i with
      | Some (Elem e cs) =>
          match insertNode p' n cs with
          | Some cs' => Some (firstn i nodes ++ Elem e cs' :: skipn (S i) nodes)%list
          | None => None
          end
      | _ => None
      end
  end.

(** What [window.getSelection()] and [getRangeAt(0)] give when a handler
    asks: no selection object, a selection without a range, or a caret (a
    collapsed range).  A caret that is no point of the editor's tree stands
    elsewhere in the page. *)
Inductive selection : Type :=
| no_selection
| no_range
| caret (p : position).

(** *** Serialisation ([innerHTML]) *)

Definition quot : string := String (ascii_of_nat 34) EmptyString.

Fixpoint escape (in_attribute : bool) (s : string) : string :=
  match s with
  | EmptyString => EmptyString
  | String c s' =>
      (if Ascii.eqb c "&" then "&amp;"
       else if in_attribute && Ascii.eqb c (ascii_of_nat 34) then "&quot;"
       else if negb in_attribute && Ascii.eqb c "<" then "&lt;"
       else if negb in_attribute && Ascii.eqb c ">" then "&gt;"
       else String c EmptyString) ++ escape in_attribute s'
  end.

Fixpoint join (sep : string) (l : list string) : string :=
  match l with
  | [] => EmptyString
  | [x] => x
  | x :: l' => x ++ sep ++ join sep l'
  end.

Definition attr_text (v : attr_value) : string :=
  match v with
  | plain s => s
  | tokens l => join " " l
  | declarations l => join " " (map (fun d => fst d ++ ": " ++ snd d ++ ";") l)
  end.

Definition serialize_attributes (a : list (string * attr_value)) : string :=
  String.concat EmptyString
    (map (fun kv => " " ++ fst kv ++ "=" ++ quot ++ escape true (attr_text (snd kv)) ++ quot) a).

Definition void (tag : string) : bool :=
  existsb (String.eqb tag) ["img"; "br"; "hr"; "input"].

Fixpoint outerHTML (n : node) : string :=
  match n with
  | Text d => escape false d
  | Elem e cs =>
      "<" ++ tagName e ++ serialize_attributes (attributes e) ++ ">" ++
      (if void (tagName e) then EmptyString
       else String.concat EmptyString (map outerHTML cs) ++ "</" ++ tagName e ++ ">")
  end.

Definition innerHTML (doc : list node) : string :=
  String.concat EmptyString (map outerHTML doc).

End DOM.

(** ** RichTextEditor.tsx: blob previews, [uploadedImages] map *)

Module RichTextEditor.

(** [editorRef] holds the children of the contenteditable div while it
    is mounted; [uploadedImages] is the Map from blob URL to server URL, in
    insertion order. *)
Record state : Type := mkState {
  editorRef : option (list DOM.node);
  isFocused : bool;
  uploadedImages : list (string * string)
}.

Definition setEditor (doc : list DOM.node) : M state unit :=
  modify (fun s => mkState (Some doc) (isFocused s) (uploadedImages s)).

Definition setIsFocused (b : bool) : M state unit :=
  modify (fun s => mkState (editorRef s) b (uploadedImages s)).

Definition setUploadedImages (f : list (string * string) -> list (string * string))
  : M state unit :=
  modify (fun s => mkState (editorRef s) (isFocused s) (f (uploadedImages s))).

(** The [forEach] of [handleInput]: one global RegExp replacement per
    entry of the map, each on the result of the one before. *)
Fixpoint replace_uploaded (m : list (string * string)) (content : string) : option string :=
  match m with
  | [] => Some content
  | (blobUrl, serverUrl) :: m' =>
      match JS.replace_RegExp_g content blobUrl (JS.Str serverUrl) with
      | Some content' => replace_uploaded m' content'
      | None => None
      end
  end.

(** Every key of the map is a RegExp source of the modelled fragment. *)
Definition modelled (m : list (string * string)) : bool :=
  forallb (fun kv => match JS.RegExp (fst kv) with Some _ => true | None => false end) m.

(** [handleInput] reads [uploadedImages] from the render it was created
    in, the document from the ref. *)
Definition handleInput (rendered : state) : M state unit :=
  s <- get ;;
  match editorRef s with
  | Some doc =>
      match replace_uploaded (uploadedImages rendered) (DOM.innerHTML doc) with
      | Some content => emit (call_onChange (JS.Str content))
      | None => outside_model
      end
  | None => ret tt
  end.

(** [executeCommand('insertImage', url)]: document.execCommand puts
    [<img src=url>] at the caret when the caret is in the editor, the
    editor is focused, [handleInput] runs.  [fresh] is the identity of the
    element the browser creates. *)
Definition executeCommand_insertImage (rendered : state) (sel : DOM.selection)
           (fresh : nat) (url : string) : M state unit :=
  s <- get ;;
  match editorRef s, sel with
  | Some doc, DOM.caret p =>
      match DOM.insertNode p (DOM.Elem (DOM.mkElement fresh "img" [("src", DOM.plain url)]) []) doc with
      | Some doc' => setEditor doc' ;; emit (image_inserted url)
      | None => ret tt
      end
  | _, _ => ret tt
  end ;;
  s <- get ;;
  when (match editorRef s with Some _ => true | None => false end) (setIsFocused true) ;;
  handleInput rendered.

(** [querySelectorAll(`img[src="${blobUrl}"]`).forEach(img => img.remove())]
    under [if (editorRef.current)], in the branch of a response that is
    not ok. *)
Definition remove_images (blobUrl : string) : M state unit :=
  s <- get ;;
  match editorRef s with
  | Some doc => setEditor (DOM.remove_all (DOM.img_with_src blobUrl) doc)
  | None => ret tt
  end.

(** The [onchange] handler installed by [handleImageUpload]. *)
Definition handleImageUpload (rendered : state) (baseURL : string) (files : list File)
           (blobUrl : string) (sel : DOM.selection) (fresh : nat)
           (meanwhile : M state unit) (settle : fetch_result) : M state unit :=
  match files with
  | [] => ret tt
  | file :: _ =>
      try_catch
        (emit (URL_createObjectURL file blobUrl) ;;
         executeCommand_insertImage rendered sel fresh blobUrl ;;
         emit (call_toast SendingImage) ;;
         r <- await_fetch file meanwhile settle ;;
         if fst r then
           url <- await_json_url (snd r) ;;
           let serverUrl := baseURL ++ JS.ToString url in
           setUploadedImages (DOM.assoc_set blobUrl serverUrl) ;;
           emit (call_toast ImageSent)
         else
           remove_images blobUrl ;;
           emit (URL_revokeObjectURL (JS.Str blobUrl)) ;;
           throw)
        (emit (call_toast ImageUploadError))
  end.

(** The cleanup function of [useEffect(..., [uploadedImages])]. *)
Definition cleanup (rendered : state) : trace :=
  flat_map (fun kv => if JS.startsWith (fst kv) "blob:"
                      then [URL_revokeObjectURL (JS.Str (fst kv))] else [])
           (uploadedImages rendered).

Definition unmount (rendered : state) : trace := cleanup rendered.

End RichTextEditor.

(** ** The editor with image selection, resize and alignment *)

Module RichTextEditorImg.

Definition image_selected : string := "image-selected".

(** [selectedImage] refers to a DOM object, by its identity. *)
Record state : Type := mkState {
  editorRef : option (list DOM.node);
  isFocused : bool;
  selectedImage : option nat
}.

Definition setEditor (doc : list DOM.node) : M state unit :=
  modify (fun s => mkState (Some doc) (isFocused s) (selectedImage s)).

Definition setIsFocused (b : bool) : M state unit :=
  modify (fun s => mkState (editorRef s) b (selectedImage s)).

Definition setSelectedImage (i : option nat) : M state unit :=
  modify (fun s => mkState (editorRef s) (isFocused s) i).

(** Edit in place the elements of the editor selected by [sel]. *)
Definition forEach_in_editor (sel : DOM.element -> bool) (f : DOM.element -> DOM.element)
  : M state unit :=
  s <- get ;;
  match editorRef s with
  | Some doc => setEditor (map (DOM.forEach sel f) doc)
  | None => ret tt
  end.

Definition same_node (i : nat) (e : DOM.element) : bool := Nat.eqb (DOM.ident e) i.

Definition handleInput : M state unit :=
  s <- get ;;
  match editorRef s with
  | Some doc => emit (call_onChange (JS.Str (DOM.innerHTML doc)))
  | None => ret tt
  end.

Definition setupImageHandlers : M state unit :=
  forEach_in_editor DOM.is_img
    (fun img => DOM.setAttribute "data-resizable" "true" (DOM.style_set "cursor" "pointer" img)).

(** [handleImageClick]; [target] is the clicked image. *)
Definition handleImageClick (target : nat) : M state unit :=
  setSelectedImage (Some target) ;;
  forEach_in_editor DOM.is_img (DOM.classList_remove image_selected) ;;
  forEach_in_editor (same_node target) (DOM.classList_add image_selected).


(** The [img] element both branches of [insertImageAtCursor] build. *)
Definition new_image (fresh : nat) (imageUrl display : string) : DOM.node :=
  DOM.Elem
    (DOM.setAttribute "contenteditable" "false"
       (DOM.setAttribute "draggable" "false"
          (DOM.setAttribute "data-resizable" "true"
             (DOM.style_set "cursor" "pointer"
                (DOM.style_set "display" display
                   (DOM.style_set "border-radius" "4px"
                      (DOM.style_set "margin" "8px"
                         (DOM.style_set "height" "auto"
                            (DOM.style_set "max-width" "300px"
                               (DOM.mkElement fresh "img" [("src", DOM.plain imageUrl)]))))))))))
    [].

(** [insertImageAtCursor]; [fresh] and [fresh_br] are the identities of
    the elements created.  [getRangeAt(0)] throws on a selection without
    a range; a missing selection object leads to the append branch. *)
Definition insertImageAtCursor (sel : DOM.selection) (fresh fresh_br : nat)
           (imageUrl : string) : M state unit :=
  s <- get ;;
  match editorRef s with
  | None => ret tt
  | Some doc =>
      setIsFocused true ;;
      match sel with
      | DOM.no_range => throw
      | DOM.caret p =>
          match DOM.insertNode p (new_image fresh imageUrl "inline-block") doc with
          | Some doc' => setEditor doc' ;; emit (image_inserted imageUrl)
          | None => ret tt
          end
      | DOM.no_selection =>
          setEditor (doc ++ [DOM.Elem (DOM.mkElement fresh_br "br" []) [];
                             new_image fresh imageUrl "block"])%list ;;
          emit (image_inserted imageUrl)
      end ;;
      handleInput
  end.

(** The branch of a response that is not ok, under
    [if (editorRef.current)]: the images carrying the handle are removed,
    then [handleInput]. *)
Definition remove_images (blobUrl : string) : M state unit :=
  s <- get ;;
  match editorRef s with
  | Some doc =>
      setEditor (DOM.remove_all (DOM.img_with_src blobUrl) doc) ;;
      handleInput
  | None => ret tt
  end.

Section Browser.

(** The HTML fragment parser behind the [innerHTML] setter. *)
Variable parseHTML : string -> list DOM.node.

(** The [onchange] handler installed by [handleImageUpload]. *)
Definition handleImageUpload (files : list File) (blobUrl : string)
           (sel : DOM.selection) (fresh fresh_br : nat)
           (meanwhile : M state unit) (settle : fetch_result) : M state unit :=
  match files with
  | [] => ret tt
  | file :: _ =>
      try_catch
        (emit (URL_createObjectURL file blobUrl) ;;
         insertImageAtCursor sel fresh fresh_br blobUrl ;;
         emit (call_toast SendingImage) ;;
         r <- await_fetch file meanwhile settle ;;
         if fst r then
           serverUrl <- await_json_url (snd r) ;;
           s <- get ;;
           match editorRef s with
           | Some doc =>
               let content := DOM.innerHTML doc in
               let updatedContent := JS.replace content blobUrl serverUrl in
               setEditor (parseHTML updatedContent) ;;
               emit (call_onChange (JS.Str updatedContent)) ;;
               setupImageHandlers
           | None => ret tt
           end ;;
           emit (URL_revokeObjectURL (JS.Str blobUrl)) ;;
           emit (call_toast ImageSent)
         else
           remove_images blobUrl ;;
           emit (URL_revokeObjectURL (JS.Str blobUrl)) ;;
           throw)
        (emit (call_toast ImageUploadError))
  end.

End Browser.

Inductive size : Type := small | medium | large | full.

Definition sizes (sz : size) : string :=
  match sz with
  | small => "150px"
  | medium => "300px"
  | large => "500px"
  | full => "100%"
  end.

Inductive alignment : Type := left | center | right.

(** Edit the selected image, wherever that object is, then [handleInput]. *)
Definition on_selectedImage (rendered : state) (f : DOM.element -> DOM.element)
  : M state unit :=
  match selectedImage rendered with
  | None => ret tt
  | Some i => forEach_in_editor (same_node i) f ;; handleInput
  end.

Definition resizeSelectedImage (rendered : state) (sz : size) : M state unit :=
  on_selectedImage rendered
    (fun img => DOM.style_set "width" (sizes sz) (DOM.style_set "max-width" (sizes sz) img)).

Definition alignSelectedImage (rendered : state) (a : alignment) : M state unit :=
  on_selectedImage rendered
    (fun img =>
       match a with
       | left =>
           DOM.style_set "display" "block"
             (DOM.style_set "margin" "8px 16px 8px 0" (DOM.style_set "float" "left" img))
       | right =>
           DOM.style_set "display" "block"
             (DOM.style_set "margin" "8px 0 8px 16px" (DOM.style_set "float" "right" img))
       | center =>
           DOM.style_set "display" "block"
             (DOM.style_set "margin" "8px auto" (DOM.style_set "float" "none" img))
       end).

Definition clearImageFloat (rendered : state) : M state unit :=
  on_selectedImage rendered
    (fun img =>
       DOM.style_set "display" "block"
         (DOM.style_set "margin" "8px auto" (DOM.style_set "float" "none" img))).



End RichTextEditorImg.

(** ** Specification vocabulary *)



(** The caret is a point of the editor's document where [n] can go. *)
Definition insertion_point (sel : DOM.selection) (n : DOM.node) (doc : list DOM.node) : bool :=
  match sel with
  | DOM.caret p => match DOM.insertNode p n doc with Some _ => true | None => false end
  | _ => false
  end.

(** *** The events of the image editor *)

Module EditorEvents.

Import RichTextEditorImg.



Definition document (s : state) : list DOM.node :=
  match editorRef s with
  | Some doc => doc
  | None => []
  end.





End EditorEvents.

(** ** Scenarios *)

Module Scenario.

Definition photo : File := "photo.png".
Definition handle : string := "blob:http://localhost:8080/3f2a".
Definition durable : string := "https://cdn/x/photo.png".
Definition previous : string := "https://cdn/x/old.png".

(** The tabbed widget showing an image saved earlier. *)
Definition tabs_with_previous : ImageUploadTabs.state :=
  final_state (ImageUploadTabs.valueEffect (JS.Str previous) ImageUploadTabs.initial).

Definition paragraph : DOM.node :=
  DOM.Elem (DOM.mkElement 1 "p" []) [DOM.Text "Intro"].

Definition selected_picture : DOM.node :=
  DOM.Elem (DOM.mkElement 2 "img"
              [("src", DOM.plain previous); ("class", DOM.tokens ["image-selected"])]) [].

(** An article with a paragraph and a selected picture. *)
Definition article : RichTextEditorImg.state :=
  RichTextEditorImg.mkState (Some [paragraph; selected_picture]) true (Some 2).

Definition draft : RichTextEditor.state :=
  RichTextEditor.mkState (Some [paragraph]) true [].

Definition draft_img : RichTextEditorImg.state :=
  RichTextEditorImg.mkState (Some [paragraph]) true None.

Definition end_of_draft : DOM.selection := DOM.caret (DOM.at_child 1).

(** While the upload is outstanding the user copies the preview image
    and pastes it at the end of the document: the browser clones the
    node, attributes included. *)
Definition paste_preview_img : M RichTextEditorImg.state unit :=
  s <- get ;;
  match RichTextEditorImg.editorRef s with
  | Some doc =>
      RichTextEditorImg.setEditor
        (doc ++ [RichTextEditorImg.new_image 9 handle "inline-block"])%list
  | None => ret tt
  end.

Definition paste_preview : M RichTextEditor.state unit :=
  s <- get ;;
  match RichTextEditor.editorRef s with
  | Some doc =>
      RichTextEditor.setEditor
        (doc ++ [DOM.Elem (DOM.mkElement 9 "img" [("src", DOM.plain handle)]) []])%list
  | None => ret tt
  end.

End Scenario.

(** ** What the components render *)

Module Rendered.

(** ImageUpload.tsx: the badge 'Carregando...' over the preview,
    [previewUrl && ... previewUrl.startsWith('blob:') && ...]. *)
Definition ImageUpload_loading_badge (s : ImageUpload.state) : bool :=
  JS.isBlob (ImageUpload.previewUrl s).

(** The tabbed widget: the badge over the preview,
    [previewUrl && ... uploading && ...]. *)
Definition ImageUploadTabs_loading_badge (s : ImageUploadTabs.state) : bool :=
  JS.truthy (ImageUploadTabs.previewUrl s) && ImageUploadTabs.uploading s.

(** The image editor: the image toolbar, [selectedImage && ...]. *)
Definition image_toolbar (s : RichTextEditorImg.state) : bool :=
  match RichTextEditorImg.selectedImage s with
  | Some _ => true
  | None => false
  end.

End Rendered.

(** ** The editors follow the [value] prop *)

Module Sync.

Section Browser.

(** The HTML fragment parser behind the [innerHTML] setter. *)
Variable parseHTML : string -> list DOM.node.

(** [value || ''] *)
Definition or_empty (value : JS.value) : string :=
  if JS.truthy value then JS.ToString value else EmptyString.

(** [value !== editorRef.current.innerHTML] *)
Definition differs (value : JS.value) (html : string) : bool :=
  negb (JS.value_eqb value (JS.Str html)).

(** RichTextEditor.tsx, [useEffect(..., [value])]. *)
Definition RichTextEditor_valueEffect (value : JS.value) : M RichTextEditor.state unit :=
  s <- get ;;
  match RichTextEditor.editorRef s with
  | Some doc =>
      when (differs value (DOM.innerHTML doc))
        (RichTextEditor.setEditor (parseHTML (or_empty value)))
  | None => ret tt
  end.

(** The image editor, [useEffect(..., [value])]: after the reset the
    image handlers are set up again. *)
Definition RichTextEditorImg_valueEffect (value : JS.value) : M RichTextEditorImg.state unit :=
  s <- get ;;
  match RichTextEditorImg.editorRef s with
  | Some doc =>
      when (differs value (DOM.innerHTML doc))
        (RichTextEditorImg.setEditor (parseHTML (or_empty value)) ;;
         RichTextEditorImg.setupImageHandlers)
  | None => ret tt
  end.

End Browser.

End Sync.

(** ** Further vocabulary *)

(** A template without [$]: GetSubstitution copies it. *)
Fixpoint plain (template : string) : bool :=
  match template with
  | EmptyString => true
  | String c rest => negb (Ascii.eqb c "$") && plain rest
  end.

(** A RegExp source without [.]: every character stands for itself. *)
Fixpoint literal (source : string) : bool :=
  match source with
  | EmptyString => true
  | String c rest => negb (Ascii.eqb c ".") && literal rest
  end.

(** No occurrence of [pat] starts at one of the first [n] positions of [s]. *)
Definition none_before (n : nat) (s pat : string) : Prop :=
  forall k, k < n -> String.prefix pat (JS.drop k s) = false.


(** A node of the document after [f] edited the elements selected by [sel]. *)
Definition edited (sel : DOM.element -> bool) (f : DOM.element -> DOM.element)
           (x : DOM.element + string) : DOM.element + string :=
  match x with
  | inl e => inl (if sel e then f e else e)
  | inr d => inr d
  end.

(** The style edits of the image controls. *)
Definition resized (sz : RichTextEditorImg.size) (img : DOM.element) : DOM.element :=
  DOM.style_set "width" (RichTextEditorImg.sizes sz)
    (DOM.style_set "max-width" (RichTextEditorImg.sizes sz) img).

Definition aligned (a : RichTextEditorImg.alignment) (img : DOM.element) : DOM.element :=
  match a with
  | RichTextEditorImg.left =>
      DOM.style_set "display" "block"
        (DOM.style_set "margin" "8px 16px 8px 0" (DOM.style_set "float" "left" img))
  | RichTextEditorImg.right =>
      DOM.style_set "display" "block"
        (DOM.style_set "margin" "8px 0 8px 16px" (DOM.style_set "float" "right" img))
  | RichTextEditorImg.center =>
      DOM.style_set "display" "block"
        (DOM.style_set "margin" "8px auto" (DOM.style_set "float" "none" img))
  end.

(** What a click on the image [target] makes of an element of the editor:
    the marker is taken from every image, then given to the target. *)
Definition clicked (target : nat) (e : DOM.element) : DOM.element :=
  let e1 := if DOM.is_img e
            then DOM.classList_remove RichTextEditorImg.image_selected e else e in
  if RichTextEditorImg.same_node target e1
  then DOM.classList_add RichTextEditorImg.image_selected e1 else e1.

(** ** More scenarios *)

Module Edits.

(** While the upload is outstanding the user deletes the preview. *)
Definition delete_preview : M RichTextEditorImg.state unit :=
  RichTextEditorImg.setEditor [Scenario.paragraph].

(** The draft with the preview inserted at its end. *)
Definition draft_with_preview : list DOM.node :=
  [Scenario.paragraph; RichTextEditorImg.new_image 7 Scenario.handle "inline-block"].

(** Its serialisation around the handle. *)
Definition before_handle : string := "<p>Intro</p><img src=" ++ DOM.quot.

Definition after_handle : string :=
  JS.drop (String.length before_handle + String.length Scenario.handle)
    (DOM.innerHTML draft_with_preview).

End Edits.

(** * Properties *)

Ltac run_handler :=
  cbv beta delta [try_finally try_catch bind await_fetch await_json_url emit modify
                  ret throw when get idle
                  ImageUpload.onDrop ImageUpload.setPreviewUrl ImageUpload.setUploading
                  ImageUpload.setUrlInput ImageUpload.suspended
                  ImageUploadTabs.onDrop ImageUploadTabs.setPreviewUrl
                  ImageUploadTabs.setUploading ImageUploadTabs.setUrlInput
                  ImageUploadTabs.setLocalImageFile ImageUploadTabs.setActiveTab
                  ImageUploadTabs.suspended];
  cbn;
  repeat match goal with
         | |- context [?m ?s] =>
             match type of m with
             | M _ _ => is_var m; destruct (m s) as [[? ?] ?]; cbn
             end
         end;
  rewrite ?app_nil_r, <- ?app_assoc; cbn; try reflexivity.

Ltac same_trace :=
  repeat first [rewrite <- app_assoc | rewrite app_nil_r | progress cbn [app]];
  try reflexivity.

Lemma notified_app (t u : trace) : notified (t ++ u)%list = (notified t ++ notified u)%list.
Proof.
  induction t as [|e t IH]; [reflexivity|].
  destruct e; cbn; rewrite IH; reflexivity.
Qed.

Lemma count_app (f : effect -> bool) (t u : trace) :
  count f (t ++ u)%list = count f t + count f u.
Proof. unfold count. rewrite filter_app, length_app. reflexivity. Qed.

(** ** The single-image widgets *)

Section Widgets.

Variables (value : JS.value) (file : File) (files : list File) (blobUrl : string).

(** *** ImageUpload.tsx, one equation per way the request settles *)

Section ImageUploadRuns.

Variables (meanwhile : M ImageUpload.state unit) (s : ImageUpload.state).

Lemma ImageUpload_onDrop_rejected :
  ImageUpload.onDrop value (file :: files) blobUrl meanwhile rejected s =
    (normal tt,
     ImageUpload.mkState false
       (ImageUpload.urlInput (final_state (meanwhile (ImageUpload.suspended s blobUrl))))
       value,
     [URL_createObjectURL file blobUrl; preview_set (JS.Str blobUrl); fetch_upload file]
       ++ effects (meanwhile (ImageUpload.suspended s blobUrl))
       ++ [URL_revokeObjectURL (JS.Str blobUrl); preview_set value;
           call_toast UploadError])%list.
Proof. run_handler. Qed.

Lemma ImageUpload_onDrop_bad_json :
  ImageUpload.onDrop value (file :: files) blobUrl meanwhile (response true bad_json) s =
    ImageUpload.onDrop value (file :: files) blobUrl meanwhile rejected s.
Proof. run_handler. Qed.

Lemma ImageUpload_onDrop_not_ok body :
  ImageUpload.onDrop value (file :: files) blobUrl meanwhile (response false body) s =
    (normal tt,
     ImageUpload.mkState false
       (ImageUpload.urlInput (final_state (meanwhile (ImageUpload.suspended s blobUrl))))
       value,
     [URL_createObjectURL file blobUrl; preview_set (JS.Str blobUrl); fetch_upload file]
       ++ effects (meanwhile (ImageUpload.suspended s blobUrl))
       ++ [URL_revokeObjectURL (JS.Str blobUrl); preview_set value;
           URL_revokeObjectURL (JS.Str blobUrl); preview_set value;
           call_toast UploadError])%list.
Proof. run_handler. Qed.

Lemma ImageUpload_onDrop_ok url :
  ImageUpload.onDrop value (file :: files) blobUrl meanwhile (response true (data url)) s =
    (normal tt, ImageUpload.mkState false url url,
     [URL_createObjectURL file blobUrl; preview_set (JS.Str blobUrl); fetch_upload file]
       ++ effects (meanwhile (ImageUpload.suspended s blobUrl))
       ++ [preview_set url; call_onChange url;
           URL_revokeObjectURL (JS.Str blobUrl); call_toast UploadDone])%list.
Proof. run_handler. Qed.

End ImageUploadRuns.

(** *** The tabbed ImageUpload *)

Section ImageUploadTabsRuns.

Variables (meanwhile : M ImageUploadTabs.state unit) (s : ImageUploadTabs.state).

Lemma ImageUploadTabs_onDrop_rejected :
  ImageUploadTabs.onDrop (file :: files) blobUrl meanwhile rejected s =
    (normal tt,
     ImageUploadTabs.mkState false
       (ImageUploadTabs.urlInput
          (final_state (meanwhile (ImageUploadTabs.suspended s file blobUrl))))
       (JS.Str EmptyString) None
       (ImageUploadTabs.activeTab
          (final_state (meanwhile (ImageUploadTabs.suspended s file blobUrl)))),
     [URL_createObjectURL file blobUrl; preview_set (JS.Str blobUrl);
      call_onChange (JS.Str blobUrl); fetch_upload file]
       ++ effects (meanwhile (ImageUploadTabs.suspended s file blobUrl))
       ++ [URL_revokeObjectURL (JS.Str blobUrl); preview_set (JS.Str EmptyString);
           call_onChange (JS.Str EmptyString); call_toast UploadError])%list.
Proof. run_handler. Qed.

Lemma ImageUploadTabs_onDrop_bad_json :
  ImageUploadTabs.onDrop (file :: files) blobUrl meanwhile (response true bad_json) s =
    ImageUploadTabs.onDrop (file :: files) blobUrl meanwhile rejected s.
Proof. run_handler. Qed.

Lemma ImageUploadTabs_onDrop_not_ok body :
  ImageUploadTabs.onDrop (file :: files) blobUrl meanwhile (response false body) s =
    (normal tt,
     ImageUploadTabs.mkState false
       (ImageUploadTabs.urlInput
          (final_state (meanwhile (ImageUploadTabs.suspended s file blobUrl))))
       (JS.Str EmptyString) None
       (ImageUploadTabs.activeTab
          (final_state (meanwhile (ImageUploadTabs.suspended s file blobUrl)))),
     [URL_createObjectURL file blobUrl; preview_set (JS.Str blobUrl);
      call_onChange (JS.Str blobUrl); fetch_upload file]
       ++ effects (meanwhile (ImageUploadTabs.suspended s file blobUrl))
       ++ [URL_revokeObjectURL (JS.Str blobUrl); preview_set (JS.Str EmptyString);
           call_onChange (JS.Str EmptyString);
           URL_revokeObjectURL (JS.Str blobUrl); preview_set (JS.Str EmptyString);
           call_onChange (JS.Str EmptyString); call_toast UploadError])%list.
Proof. run_handler. Qed.

Lemma ImageUploadTabs_onDrop_ok url :
  ImageUploadTabs.onDrop (file :: files) blobUrl meanwhile (response true (data url)) s =
    (normal tt,
     ImageUploadTabs.mkState false
       (ImageUploadTabs.urlInput
          (final_state (meanwhile (ImageUploadTabs.suspended s file blobUrl))))
       (ImageUploadTabs.previewUrl
          (final_state (meanwhile (ImageUploadTabs.suspended s file blobUrl))))
       (ImageUploadTabs.localImageFile
          (final_state (meanwhile (ImageUploadTabs.suspended s file blobUrl))))
       (ImageUploadTabs.activeTab
          (final_state (meanwhile (ImageUploadTabs.suspended s file blobUrl)))),
     [URL_createObjectURL file blobUrl; preview_set (JS.Str blobUrl);
      call_onChange (JS.Str blobUrl); fetch_upload file]
       ++ effects (meanwhile (ImageUploadTabs.suspended s file blobUrl))
       ++ [call_onChange url; call_toast UploadDone])%list.
Proof. run_handler. Qed.

End ImageUploadTabsRuns.

End Widgets.

(** C10: a drop that yields no file does nothing, in both single-image
    widgets: no handle is allocated, no request is issued, nothing is
    notified, the change callback is not called (the trace is empty) and
    the component state is the one before. *)
Theorem onDrop_without_file_is_noop :
  forall value blobUrl settle
         (meanwhile : M ImageUpload.state unit) (s : ImageUpload.state)
         (meanwhile' : M ImageUploadTabs.state unit) (s' : ImageUploadTabs.state),
    ImageUpload.onDrop value [] blobUrl meanwhile settle s = (normal tt, s, []) /\
    ImageUploadTabs.onDrop [] blobUrl meanwhile' settle s' = (normal tt, s', []).
Proof. intros. split; reflexivity. Qed.

(** In ImageUpload.tsx a failed upload puts the preview back to the
    [value] prop of the render that handled the drop and calls the change
    callback for nothing. *)
Lemma ImageUpload_failure_reverts_to_value :
  forall value file files blobUrl body s settle,
    settle = rejected \/ settle = response false body ->
    let run := ImageUpload.onDrop value (file :: files) blobUrl idle settle s in
    ImageUpload.previewUrl (final_state run) = value /\ notified (effects run) = [].
Proof.
  intros value file files blobUrl body s settle [-> | ->] run; subst run.
  - rewrite ImageUpload_onDrop_rejected. split; reflexivity.
  - rewrite ImageUpload_onDrop_not_ok. split; reflexivity.
Qed.

(** C2, as the tabbed ImageUpload behaves: after a failed upload (the
    request rejects, or the response is not ok) the preview is the empty
    string and the last value handed to the change callback is the empty
    string, whatever the reference was before the file was selected; in the
    scenario the reference [Scenario.previous] shown before the drop is
    lost. *)
Theorem ImageUploadTabs_failure_clears_reference :
  forall file files blobUrl meanwhile body s,
    let run := fun settle => ImageUploadTabs.onDrop (file :: files) blobUrl meanwhile settle s in
    (ImageUploadTabs.previewUrl (final_state (run rejected)) = JS.Str EmptyString /\
     last (notified (effects (run rejected))) JS.Undefined = JS.Str EmptyString) /\
    (ImageUploadTabs.previewUrl (final_state (run (response false body))) = JS.Str EmptyString /\
     last (notified (effects (run (response false body)))) JS.Undefined = JS.Str EmptyString) /\
    ImageUploadTabs.previewUrl Scenario.tabs_with_previous = JS.Str Scenario.previous /\
    ImageUploadTabs.previewUrl
      (final_state (ImageUploadTabs.onDrop [Scenario.photo] Scenario.handle idle
                      (response false bad_json) Scenario.tabs_with_previous))
    = JS.Str EmptyString.
Proof.
  intros file files blobUrl meanwhile body s run; subst run; cbv beta.
  rewrite ImageUploadTabs_onDrop_rejected, ImageUploadTabs_onDrop_not_ok.
  unfold final_state, effects; cbn [fst snd ImageUploadTabs.previewUrl].
  repeat split.
  - rewrite !notified_app. cbn [notified].
    rewrite app_assoc. apply last_last.
  - rewrite !notified_app. cbn [notified].
    change [JS.Str EmptyString; JS.Str EmptyString]
      with ([JS.Str EmptyString] ++ [JS.Str EmptyString])%list.
    rewrite !app_assoc. apply last_last.
Qed.

(** C3 fails in the tabbed ImageUpload: the handle is handed to the change
    callback as soon as the file is dropped. *)
Lemma ImageUploadTabs_notifies_the_handle :
  JS.isBlob (JS.Str Scenario.handle) = true /\
  In (JS.Str Scenario.handle)
     (notified (effects (ImageUploadTabs.onDrop [Scenario.photo] Scenario.handle idle
                           (response true (data (JS.Str Scenario.durable)))
                           ImageUploadTabs.initial))).
Proof. split; [reflexivity | left; reflexivity]. Qed.

(** C3 as amended: in ImageUpload.tsx the drop handler calls the change
    callback only when the upload succeeded, once, with the [url] field of
    the response, so never with the handle it allocated; the tabbed
    ImageUpload calls it first with the handle itself. *)
Theorem onDrop_callback_values :
  forall value files blobUrl settle s,
    notified (effects (ImageUpload.onDrop value files blobUrl idle settle s)) =
      match files, settle with
      | _ :: _, response true (data url) => [url]
      | _, _ => []
      end /\
    forall file meanwhile s',
      hd_error (notified (effects (ImageUploadTabs.onDrop (file :: files) blobUrl
                                     meanwhile settle s')))
      = Some (JS.Str blobUrl).
Proof.
  intros value files blobUrl settle s. split.
  - destruct files as [|file files]; [reflexivity|].
    destruct settle as [|[|] [|url]].
    + rewrite ImageUpload_onDrop_rejected. reflexivity.
    + rewrite ImageUpload_onDrop_bad_json, ImageUpload_onDrop_rejected. reflexivity.
    + rewrite ImageUpload_onDrop_ok. reflexivity.
    + rewrite ImageUpload_onDrop_not_ok. reflexivity.
    + rewrite ImageUpload_onDrop_not_ok. reflexivity.
  - intros file meanwhile s'.
    destruct settle as [|[|] [|url]];
      rewrite ?ImageUploadTabs_onDrop_bad_json, ?ImageUploadTabs_onDrop_rejected,
        ?ImageUploadTabs_onDrop_ok, ?ImageUploadTabs_onDrop_not_ok; reflexivity.
Qed.



(** ** The editors *)

Ltac run_editor :=
  cbv beta delta [try_finally try_catch bind await_fetch await_json_url emit modify
                  ret throw when get idle
                  RichTextEditor.handleImageUpload RichTextEditor.setUploadedImages
                  RichTextEditor.remove_images RichTextEditor.setEditor
                  RichTextEditorImg.handleImageUpload RichTextEditorImg.remove_images
                  RichTextEditorImg.setEditor RichTextEditorImg.handleInput
                  RichTextEditorImg.setupImageHandlers RichTextEditorImg.forEach_in_editor];
  cbn -[RichTextEditor.executeCommand_insertImage RichTextEditorImg.insertImageAtCursor
        DOM.remove_all DOM.innerHTML JS.replace DOM.forEach].

Lemma replace_uploaded_modelled m :
  RichTextEditor.modelled m = true ->
  forall content, exists content', RichTextEditor.replace_uploaded m content = Some content'.
Proof.
  induction m as [|[blobUrl serverUrl] m IH]; intros Hm content; cbn.
  - eexists; reflexivity.
  - cbn in Hm. apply andb_prop in Hm as [Hk Hm].
    unfold JS.replace_RegExp_g.
    destruct (JS.RegExp blobUrl); [|discriminate].
    apply IH; assumption.
Qed.

Ltac classify :=
  repeat (apply Forall_cons; [first [left; reflexivity | right; eexists; reflexivity]|]);
  apply Forall_nil.

Section EditorRuns.

Variables (file : File) (files : list File) (blobUrl : string).
Variables (sel : DOM.selection) (fresh fresh_br : nat).

(** *** RichTextEditor.tsx *)

(** The insertion of the preview only inserts and notifies the content;
    it stops short only where [handleInput] leaves the modelled RegExp
    fragment. *)
Lemma RichTextEditor_insertImage_run rendered s :
  exists r s1 t1,
    RichTextEditor.executeCommand_insertImage rendered sel fresh blobUrl s = (r, s1, t1) /\
    (r = normal tt \/ r = unmodelled) /\
    (RichTextEditor.modelled (RichTextEditor.uploadedImages rendered) = true ->
     r = normal tt) /\
    RichTextEditor.uploadedImages s1 = RichTextEditor.uploadedImages s /\
    Forall (fun e => e = image_inserted blobUrl \/ exists c, e = call_onChange c) t1 /\
    (forall doc, RichTextEditor.editorRef s = Some doc ->
                 insertion_point sel
                   (DOM.Elem (DOM.mkElement fresh "img" [("src", DOM.plain blobUrl)]) []) doc
                 = true ->
                 In (image_inserted blobUrl) t1).
Proof.
  assert (total : forall m content,
             RichTextEditor.modelled m = true ->
             RichTextEditor.replace_uploaded m content <> None).
  { intros m content Hm. destruct (replace_uploaded_modelled m Hm content) as [c ->].
    discriminate. }
  unfold RichTextEditor.executeCommand_insertImage, RichTextEditor.handleInput,
    RichTextEditor.setEditor, RichTextEditor.setIsFocused, insertion_point.
  destruct s as [[doc|] focused m0]; cbn.
  - set (m := RichTextEditor.uploadedImages rendered).
    destruct sel as [| |p]; cbn.
    + destruct (RichTextEditor.replace_uploaded m (DOM.innerHTML doc)) as [c|] eqn:Hc; cbn;
        do 3 eexists; (split; [reflexivity|]); (split; [tauto|]); (split; [|split; [reflexivity|]]);
        try (intros Hm; apply total with (content := DOM.innerHTML doc) in Hm; congruence);
        try reflexivity;
        (split; [classify | intros d _ H; discriminate H]).
    + destruct (RichTextEditor.replace_uploaded m (DOM.innerHTML doc)) as [c|] eqn:Hc; cbn;
        do 3 eexists; (split; [reflexivity|]); (split; [tauto|]); (split; [|split; [reflexivity|]]);
        try (intros Hm; apply total with (content := DOM.innerHTML doc) in Hm; congruence);
        try reflexivity;
        (split; [classify | intros d _ H; discriminate H]).
    + destruct (DOM.insertNode p _ doc) as [doc'|] eqn:Hins; cbn.
      * destruct (RichTextEditor.replace_uploaded m (DOM.innerHTML doc')) as [c|] eqn:Hc; cbn;
          do 3 eexists; (split; [reflexivity|]); (split; [tauto|]);
          (split; [|split; [reflexivity|]]);
          try (intros Hm; apply total with (content := DOM.innerHTML doc') in Hm; congruence);
          try reflexivity;
          (split; [classify | intros d _ _; left; reflexivity]).
      * destruct (RichTextEditor.replace_uploaded m (DOM.innerHTML doc)) as [c|] eqn:Hc; cbn;
          do 3 eexists; (split; [reflexivity|]); (split; [tauto|]);
          (split; [|split; [reflexivity|]]);
          try (intros Hm; apply total with (content := DOM.innerHTML doc) in Hm; congruence);
          try reflexivity;
          (split; [classify
                  | intros d Hd H; injection Hd as <-; rewrite Hins in H; discriminate H]).
  - destruct sel; cbn; do 3 eexists; (split; [reflexivity|]); (split; [tauto|]);
      (split; [reflexivity|]); (split; [reflexivity|]);
      (split; [classify | intros d Hd; discriminate Hd]).
Qed.

Lemma RichTextEditor_upload_unmodelled rendered baseURL meanwhile settle s s1 t1 :
  RichTextEditor.executeCommand_insertImage rendered sel fresh blobUrl s
  = (unmodelled, s1, t1) ->
  RichTextEditor.handleImageUpload rendered baseURL (file :: files) blobUrl sel fresh
    meanwhile settle s = (unmodelled, s1, URL_createObjectURL file blobUrl :: t1).
Proof. intros H. run_editor. rewrite H. reflexivity. Qed.

Section RichTextEditorRuns.

Variables (baseURL : string) (meanwhile : M RichTextEditor.state unit).
Variables (rendered s s1 : RichTextEditor.state) (t1 : trace).
Hypothesis inserted :
  RichTextEditor.executeCommand_insertImage rendered sel fresh blobUrl s
  = (normal tt, s1, t1).

Lemma RichTextEditor_upload_rejected :
  RichTextEditor.handleImageUpload rendered baseURL (file :: files) blobUrl sel fresh
    meanwhile
    rejected s =
    (normal tt, final_state (meanwhile s1),
     URL_createObjectURL file blobUrl :: t1
       ++ [call_toast SendingImage; fetch_upload file]
       ++ effects (meanwhile s1) ++ [call_toast ImageUploadError])%list.
Proof.
  run_editor. rewrite inserted. cbn.
  destruct (meanwhile s1) as [[c s2] t2]. cbn.
  same_trace.
Qed.



Lemma RichTextEditor_upload_ok url :
  RichTextEditor.handleImageUpload rendered baseURL (file :: files) blobUrl sel fresh
    meanwhile
    (response true (data url)) s =
    (normal tt,
     RichTextEditor.mkState
       (RichTextEditor.editorRef (final_state (meanwhile s1)))
       (RichTextEditor.isFocused (final_state (meanwhile s1)))
       (DOM.assoc_set blobUrl (baseURL ++ JS.ToString url)%string
          (RichTextEditor.uploadedImages (final_state (meanwhile s1)))),
     URL_createObjectURL file blobUrl :: t1
       ++ [call_toast SendingImage; fetch_upload file]
       ++ effects (meanwhile s1) ++ [call_toast ImageSent])%list.
Proof.
  run_editor. rewrite inserted. cbn.
  destruct (meanwhile s1) as [[c s2] t2]. cbn.
  same_trace.
Qed.

End RichTextEditorRuns.

(** *** The editor with image controls *)

(** [insertImageAtCursor] returns or throws; it notifies the content and
    touches neither the request nor the handle's registration. *)
Lemma RichTextEditorImg_insert_run s :
  exists r s1 t1,
    RichTextEditorImg.insertImageAtCursor sel fresh fresh_br blobUrl s = (r, s1, t1) /\
    (r = normal tt \/ r = thrown /\ sel = DOM.no_range) /\
    RichTextEditorImg.selectedImage s1 = RichTextEditorImg.selectedImage s /\
    Forall (fun e => e = image_inserted blobUrl \/ exists c, e = call_onChange c) t1 /\
    (forall doc, RichTextEditorImg.editorRef s = Some doc ->
                 sel = DOM.no_selection \/
                 insertion_point sel
                   (RichTextEditorImg.new_image fresh blobUrl "inline-block") doc = true ->
                 r = normal tt /\ In (image_inserted blobUrl) t1).
Proof.
  unfold RichTextEditorImg.insertImageAtCursor, RichTextEditorImg.handleInput,
    RichTextEditorImg.setEditor, RichTextEditorImg.setIsFocused, insertion_point.
  destruct s as [[doc|] focused selected]; cbn.
  - destruct sel as [| |p]; cbn.
    + do 3 eexists. split; [reflexivity|]. split; [left; reflexivity|].
      split; [reflexivity|]. split; [classify|].
      intros d _ _. split; [reflexivity | left; reflexivity].
    + do 3 eexists. split; [reflexivity|]. split; [right; split; reflexivity|].
      split; [reflexivity|]. split; [classify|].
      intros d _ [H|H]; discriminate H.
    + destruct (DOM.insertNode p _ doc) as [doc'|] eqn:Hins; cbn.
      * do 3 eexists. split; [reflexivity|]. split; [left; reflexivity|].
        split; [reflexivity|]. split; [classify|].
        intros d _ _. split; [reflexivity | left; reflexivity].
      * do 3 eexists. split; [reflexivity|]. split; [left; reflexivity|].
        split; [reflexivity|]. split; [classify|].
        intros d Hd [H|H]; [discriminate H|].
        injection Hd as <-. rewrite Hins in H. discriminate H.
  - do 3 eexists. split; [reflexivity|]. split; [left; reflexivity|].
    split; [reflexivity|]. split; [classify|].
    intros d Hd; discriminate Hd.
Qed.

Section RichTextEditorImgRuns.

Variables (parseHTML : string -> list DOM.node).
Variables (meanwhile : M RichTextEditorImg.state unit).
Variables (s s1 : RichTextEditorImg.state) (t1 : trace).

Lemma RichTextEditorImg_upload_thrown settle :
  RichTextEditorImg.insertImageAtCursor sel fresh fresh_br blobUrl s = (thrown, s1, t1) ->
  RichTextEditorImg.handleImageUpload parseHTML (file :: files) blobUrl sel fresh fresh_br
    meanwhile settle s =
    (normal tt, s1, URL_createObjectURL file blobUrl :: t1 ++ [call_toast ImageUploadError])%list.
Proof. intros H. run_editor. rewrite H. reflexivity. Qed.

Hypothesis inserted :
  RichTextEditorImg.insertImageAtCursor sel fresh fresh_br blobUrl s = (normal tt, s1, t1).

Lemma RichTextEditorImg_upload_rejected :
  RichTextEditorImg.handleImageUpload parseHTML (file :: files) blobUrl sel fresh fresh_br
    meanwhile rejected s =
    (normal tt, final_state (meanwhile s1),
     URL_createObjectURL file blobUrl :: t1
       ++ [call_toast SendingImage; fetch_upload file]
       ++ effects (meanwhile s1) ++ [call_toast ImageUploadError])%list.
Proof.
  run_editor. rewrite inserted. cbn.
  destruct (meanwhile s1) as [[c s2] t2]. cbn.
  same_trace.
Qed.



(** On success the content handed to the callback is the serialised
    document with [String.prototype.replace] applied once. *)
Lemma RichTextEditorImg_upload_ok url :
  effects (RichTextEditorImg.handleImageUpload parseHTML (file :: files) blobUrl sel fresh
             fresh_br meanwhile (response true (data url)) s) =
    (URL_createObjectURL file blobUrl :: t1
       ++ [call_toast SendingImage; fetch_upload file]
       ++ effects (meanwhile s1)
       ++ match RichTextEditorImg.editorRef (final_state (meanwhile s1)) with
          | Some doc =>
              [call_onChange (JS.Str (JS.replace (DOM.innerHTML doc) blobUrl url))]
          | None => []
          end
       ++ [URL_revokeObjectURL (JS.Str blobUrl); call_toast ImageSent])%list.
Proof.
  run_editor. rewrite inserted. cbn.
  destruct (meanwhile s1) as [[c s2] t2]. cbn.
  destruct (RichTextEditorImg.editorRef s2); cbn; same_trace.
Qed.

End RichTextEditorImgRuns.

End EditorRuns.

Lemma count_insertion_effects (f : effect -> bool) (blobUrl : string) (t : trace) :
  Forall (fun e => e = image_inserted blobUrl \/ exists c, e = call_onChange c) t ->
  f (image_inserted blobUrl) = false ->
  (forall c, f (call_onChange c) = false) ->
  count f t = 0.
Proof.
  intros Ht Hi Hc. unfold count.
  induction Ht as [|e t [-> | [c ->]] _ IH]; cbn.
  - reflexivity.
  - rewrite Hi. exact IH.
  - rewrite Hc. exact IH.
Qed.

Lemma count_cons (f : effect -> bool) (e : effect) (t : trace) :
  count f (e :: t) = (if f e then 1 else 0) + count f t.
Proof. unfold count; cbn. destruct (f e); reflexivity. Qed.

Ltac count_effects Ht :=
  unfold effects, final_state, idle, ret; cbn [fst snd app];
  repeat first [rewrite count_cons | rewrite count_app];
  rewrite ?(count_insertion_effects _ _ _ Ht) by (intros; reflexivity);
  cbn -[String.eqb]; rewrite ?String.eqb_refl; cbn.

(** C5, where the editors break the pairing: when the request rejects, the
    handle allocated for the preview is released nowhere, neither by the
    handler (its [catch] only notifies) nor, in RichTextEditor.tsx, by the
    cleanup at unmount, which releases the same handles as before the
    upload. *)
Theorem editor_network_failure_never_releases :
  forall file files blobUrl sel fresh fresh_br,
    (forall parseHTML s,
        let run := RichTextEditorImg.handleImageUpload parseHTML (file :: files) blobUrl sel
                     fresh fresh_br idle rejected s in
        count (is_create blobUrl) (effects run) = 1 /\
        count (is_revoke blobUrl) (effects run) = 0) /\
    (forall rendered baseURL s,
        let run := RichTextEditor.handleImageUpload rendered baseURL (file :: files) blobUrl sel
                     fresh idle rejected s in
        count (is_create blobUrl) (effects run) = 1 /\
        count (is_revoke blobUrl) (effects run) = 0 /\
        RichTextEditor.unmount (final_state run) = RichTextEditor.unmount s).
Proof.
  intros file files blobUrl sel fresh fresh_br. split.
  - intros parseHTML s run; subst run.
    destruct (RichTextEditorImg_insert_run blobUrl sel fresh fresh_br s)
      as (r & s1 & t1 & Hrun & [-> | [-> _]] & _ & Ht & _).
    + rewrite (RichTextEditorImg_upload_rejected _ _ _ _ _ _ _ _ _ _ _ Hrun).
      count_effects Ht. split; reflexivity.
    + rewrite (RichTextEditorImg_upload_thrown _ _ _ _ _ _ _ _ _ _ _ _ Hrun).
      count_effects Ht. split; reflexivity.
  - intros rendered baseURL s run; subst run.
    destruct (RichTextEditor_insertImage_run blobUrl sel fresh rendered s)
      as (r & s1 & t1 & Hrun & [-> | ->] & _ & Hm & Ht & _).
    + rewrite (RichTextEditor_upload_rejected _ _ _ _ _ _ _ _ _ _ _ Hrun).
      count_effects Ht.
      unfold RichTextEditor.unmount, RichTextEditor.cleanup. rewrite Hm.
      repeat split; reflexivity.
    + rewrite (RichTextEditor_upload_unmodelled _ _ _ _ _ _ _ _ _ _ _ _ Hrun).
      count_effects Ht.
      unfold RichTextEditor.unmount, RichTextEditor.cleanup. rewrite Hm.
      repeat split; reflexivity.
Qed.

(** *** Removing the images of a failed upload *)

Lemma remove_Elem sel e cs : DOM.remove sel (DOM.Elem e cs) = DOM.Elem e (DOM.remove_all sel cs).
Proof.
  cbn. f_equal. induction cs as [|c cs IH]; cbn; [reflexivity|].
  rewrite IH. reflexivity.
Qed.

Lemma count_all_cons sel n doc :
  DOM.count_all sel (n :: doc) = DOM.count sel n + DOM.count_all sel doc.
Proof. reflexivity. Qed.

Lemma count_Elem sel e cs :
  DOM.count sel (DOM.Elem e cs) = (if sel e then 1 else 0) + DOM.count_all sel cs.
Proof. reflexivity. Qed.

(** No element selected by [sel] is left below a node that is kept. *)
Lemma remove_leaves_none sel n :
  DOM.selected_by sel n = false -> DOM.count sel (DOM.remove sel n) = 0.
Proof.
  induction n as [d|e cs IH] using DOM.node_ind; intros Hn; [reflexivity|].
  rewrite remove_Elem, count_Elem. cbn in Hn. rewrite Hn. cbn [Nat.add].
  induction IH as [|c cs Hc _ IHcs]; cbn [DOM.remove_all]; [reflexivity|].
  destruct (DOM.selected_by sel c) eqn:Hsel; [exact IHcs|].
  rewrite count_all_cons, (Hc eq_refl), IHcs. reflexivity.
Qed.

Lemma remove_all_leaves_none sel doc : DOM.count_all sel (DOM.remove_all sel doc) = 0.
Proof.
  induction doc as [|c doc IH]; cbn [DOM.remove_all]; [reflexivity|].
  destruct (DOM.selected_by sel c) eqn:Hsel; [exact IH|].
  rewrite count_all_cons, (remove_leaves_none sel c Hsel), IH. reflexivity.
Qed.

(** A subtree without selected elements is left as it is. *)
Lemma remove_without_match sel n : DOM.count sel n = 0 -> DOM.remove sel n = n.
Proof.
  induction n as [d|e cs IH] using DOM.node_ind; intros Hn; [reflexivity|].
  rewrite remove_Elem. f_equal.
  rewrite count_Elem in Hn. assert (Hcs : DOM.count_all sel cs = 0) by lia. clear Hn.
  induction IH as [|c cs Hc _ IHcs]; cbn [DOM.remove_all]; [reflexivity|].
  rewrite count_all_cons in Hcs.
  assert (H0 : DOM.count sel c = 0) by lia.
  assert (Hsel : DOM.selected_by sel c = false).
  { destruct c as [d|e' cs']; [reflexivity|]. rewrite count_Elem in H0. cbn.
    destruct (sel e'); [lia | reflexivity]. }
  rewrite Hsel, (Hc H0), IHcs by lia. reflexivity.
Qed.

Lemma remove_all_without_match sel doc :
  DOM.count_all sel doc = 0 -> DOM.remove_all sel doc = doc.
Proof.
  intros H. pose proof (remove_without_match sel (DOM.Elem (DOM.mkElement 0 "div" []) doc)) as R.
  rewrite remove_Elem, count_Elem in R.
  destruct (sel _); [|injection (R H) as ->; reflexivity].
  clear R. induction doc as [|c doc IH]; cbn [DOM.remove_all]; [reflexivity|].
  rewrite count_all_cons in H.
  assert (Hsel : DOM.selected_by sel c = false).
  { destruct c as [d|e' cs']; [reflexivity|]. rewrite count_Elem in H. cbn.
    destruct (sel e'); [lia | reflexivity]. }
  rewrite Hsel, remove_without_match, IH by lia. reflexivity.
Qed.

(** What the removal leaves is the document without the selected
    elements: every other node stays, in its place. *)
Lemma remove_keeps_the_rest sel n :
  DOM.selected_by sel n = false -> DOM.childless sel n = true ->
  DOM.nodes (DOM.remove sel n) = filter (DOM.not_selected sel) (DOM.nodes n).
Proof.
  induction n as [d|e cs IH] using DOM.node_ind; intros Hn Hc; [reflexivity|].
  rewrite remove_Elem. cbn [DOM.nodes filter DOM.not_selected].
  cbn in Hn. rewrite Hn. cbn [negb]. f_equal.
  cbn [DOM.childless] in Hc. apply andb_prop in Hc as [_ Hcs]. clear Hn.
  induction IH as [|c cs Hc' _ IHcs]; [reflexivity|].
  cbn [forallb] in Hcs. apply andb_prop in Hcs as [Hc1 Hc2].
  cbn [DOM.remove_all flat_map]. rewrite filter_app.
  destruct (DOM.selected_by sel c) eqn:Hsel.
  - destruct c as [d|e' cs']; [discriminate Hsel|].
    cbn in Hsel. cbn [DOM.childless] in Hc1. rewrite Hsel in Hc1.
    destruct cs' as [|c' cs']; [|discriminate Hc1].
    cbn [DOM.nodes flat_map filter DOM.not_selected app]. rewrite Hsel. cbn [negb].
    apply IHcs. exact Hc2.
  - cbn [flat_map]. rewrite (Hc' eq_refl Hc1), (IHcs Hc2). reflexivity.
Qed.

Lemma remove_all_keeps_the_rest sel doc :
  forallb (DOM.childless sel) doc = true ->
  DOM.nodes_all (DOM.remove_all sel doc)
  = filter (DOM.not_selected sel) (DOM.nodes_all doc).
Proof.
  unfold DOM.nodes_all. induction doc as [|c doc IH]; intros Hc; [reflexivity|].
  cbn [forallb] in Hc. apply andb_prop in Hc as [Hc1 Hc2].
  cbn [DOM.remove_all flat_map]. rewrite filter_app.
  destruct (DOM.selected_by sel c) eqn:Hsel.
  - destruct c as [d|e' cs']; [discriminate Hsel|].
    cbn in Hsel. cbn [DOM.childless] in Hc1. rewrite Hsel in Hc1.
    destruct cs' as [|c' cs']; [|discriminate Hc1].
    cbn [DOM.nodes flat_map filter DOM.not_selected app]. rewrite Hsel. cbn [negb].
    apply IH. exact Hc2.
  - cbn [flat_map]. rewrite (remove_keeps_the_rest sel c Hsel Hc1), (IH Hc2). reflexivity.
Qed.

(** In both editors a response that is not ok removes every image that
    carries the handle from the document the editor holds at that time. *)
Lemma not_ok_removes_the_previews blobUrl doc :
  (forall focused m,
      RichTextEditor.editorRef
        (final_state (RichTextEditor.remove_images blobUrl
                        (RichTextEditor.mkState (Some doc) focused m)))
      = Some (DOM.remove_all (DOM.img_with_src blobUrl) doc)) /\
  (forall focused selected,
      RichTextEditorImg.editorRef
        (final_state (RichTextEditorImg.remove_images blobUrl
                        (RichTextEditorImg.mkState (Some doc) focused selected)))
      = Some (DOM.remove_all (DOM.img_with_src blobUrl) doc)) /\
  DOM.count_all (DOM.img_with_src blobUrl) (DOM.remove_all (DOM.img_with_src blobUrl) doc) = 0.
Proof.
  split; [|split]; [reflexivity | reflexivity | apply remove_all_leaves_none].
Qed.

(** C8, where the editors miss it: when the request rejects, the handler
    leaves the document as the insertion of the preview made it, so the
    image that carries the handle stays; in the scenario the draft ends
    with one such image. *)
Theorem editor_network_failure_keeps_preview :
  forall file files blobUrl sel fresh fresh_br,
    (forall parseHTML s,
        final_state (RichTextEditorImg.handleImageUpload parseHTML (file :: files) blobUrl sel
                       fresh fresh_br idle rejected s)
        = final_state (RichTextEditorImg.insertImageAtCursor sel fresh fresh_br blobUrl s)) /\
    (forall rendered baseURL s,
        final_state (RichTextEditor.handleImageUpload rendered baseURL (file :: files) blobUrl sel
                       fresh idle rejected s)
        = final_state (RichTextEditor.executeCommand_insertImage rendered sel fresh blobUrl s)) /\
    DOM.count_all (DOM.img_with_src Scenario.handle)
      (EditorEvents.document
         (final_state (RichTextEditorImg.handleImageUpload (fun _ => []) [Scenario.photo]
                         Scenario.handle Scenario.end_of_draft 7 8 idle rejected
                         Scenario.draft_img))) = 1.
Proof.
  intros file files blobUrl sel fresh fresh_br. split; [|split].
  - intros parseHTML s.
    destruct (RichTextEditorImg_insert_run blobUrl sel fresh fresh_br s)
      as (r & s1 & t1 & Hrun & [-> | [-> _]] & _).
    + rewrite (RichTextEditorImg_upload_rejected _ _ _ _ _ _ _ _ _ _ _ Hrun), Hrun.
      reflexivity.
    + rewrite (RichTextEditorImg_upload_thrown _ _ _ _ _ _ _ _ _ _ _ _ Hrun), Hrun.
      reflexivity.
  - intros rendered baseURL s.
    destruct (RichTextEditor_insertImage_run blobUrl sel fresh rendered s)
      as (r & s1 & t1 & Hrun & [-> | ->] & _).
    + rewrite (RichTextEditor_upload_rejected _ _ _ _ _ _ _ _ _ _ _ Hrun), Hrun.
      reflexivity.
    + rewrite (RichTextEditor_upload_unmodelled _ _ _ _ _ _ _ _ _ _ _ _ Hrun), Hrun.
      reflexivity.
  - vm_compute. reflexivity.
Qed.

(** *** Upload success *)

Lemma lookup_assoc_set {A} k (v : A) l : DOM.lookup k (DOM.assoc_set k v l) = Some v.
Proof.
  induction l as [|[k' v'] l IH]; cbn.
  - rewrite String.eqb_refl. reflexivity.
  - destruct (String.eqb k k') eqn:E; cbn; rewrite E; [reflexivity | exact IH].
Qed.

(** Both editors hand the content to the change callback right after
    inserting the preview, handle included. *)
Example editors_notify_content_with_handle :
  (exists content,
      hd_error (notified (effects (RichTextEditor.handleImageUpload Scenario.draft "https://api"
                                     [Scenario.photo] Scenario.handle Scenario.end_of_draft 7
                                     idle rejected Scenario.draft)))
      = Some (JS.Str content) /\ JS.occurrences content Scenario.handle = 1) /\
  (exists content,
      hd_error (notified (effects (RichTextEditorImg.handleImageUpload (fun _ => [])
                                     [Scenario.photo] Scenario.handle Scenario.end_of_draft 7 8
                                     idle rejected Scenario.draft_img)))
      = Some (JS.Str content) /\ JS.occurrences content Scenario.handle = 1).
Proof.
  split; eexists; (split; [vm_compute; reflexivity | vm_compute; reflexivity]).
Qed.

(** In ImageUpload.tsx a response that is not ok releases the handle in
    the [else] branch and again in [catch]; after a success the handler
    releases it and so does the cleanup of the [previewUrl] effect when
    React renders the new preview. *)
Example ImageUpload_releases_twice :
  let s := ImageUpload.initial (JS.Str Scenario.previous) in
  let run := fun settle =>
    ImageUpload.onDrop (JS.Str Scenario.previous) [Scenario.photo] Scenario.handle idle
      settle s in
  count (is_revoke Scenario.handle) (effects (run (response false bad_json))) = 2 /\
  count (is_revoke Scenario.handle)
    (effects (run (response true (data (JS.Str Scenario.durable))))
       ++ ImageUpload.rerender (ImageUpload.suspended s Scenario.handle)
            (final_state (run (response true (data (JS.Str Scenario.durable))))))%list
  = 2.
Proof. split; vm_compute; reflexivity. Qed.

(** C6 fails in RichTextEditor.tsx: after a successful upload the image of
    the document still carries the handle, and the handle is a key of
    [uploadedImages]. *)
Lemma RichTextEditor_success_keeps_handle :
  final_state
    (RichTextEditor.handleImageUpload Scenario.draft "https://api" [Scenario.photo] Scenario.handle
       Scenario.end_of_draft 7 idle (response true (data (JS.Str "/uploads/photo.png")))
       Scenario.draft)
  = RichTextEditor.mkState
      (Some [Scenario.paragraph;
             DOM.Elem (DOM.mkElement 7 "img" [("src", DOM.plain Scenario.handle)]) []])
      true
      [(Scenario.handle, "https://api/uploads/photo.png")].
Proof. vm_compute. reflexivity. Qed.

(** C6 as amended: after a successful upload, ImageUpload.tsx holds the
    [url] field of the response as preview and URL input, has handed it to
    the change callback last, and no longer holds the handle;
    RichTextEditor.tsx records the handle with the API base followed by the
    [url] field in [uploadedImages] and leaves the document as the
    insertion of the preview made it. *)
Theorem success_binds_server_url :
  forall file files blobUrl url,
    (forall value meanwhile s,
        let run := ImageUpload.onDrop value (file :: files) blobUrl meanwhile
                     (response true (data url)) s in
        final_state run = ImageUpload.mkState false url url /\
        last (notified (effects run)) JS.Undefined = url) /\
    (forall rendered baseURL sel fresh s,
        RichTextEditor.modelled (RichTextEditor.uploadedImages rendered) = true ->
        let run := RichTextEditor.handleImageUpload rendered baseURL (file :: files) blobUrl sel fresh
                     idle (response true (data url)) s in
        DOM.lookup blobUrl (RichTextEditor.uploadedImages (final_state run))
        = Some (baseURL ++ JS.ToString url) /\
        RichTextEditor.editorRef (final_state run)
        = RichTextEditor.editorRef
            (final_state (RichTextEditor.executeCommand_insertImage rendered sel fresh blobUrl s))).
Proof.
  intros file files blobUrl url. split.
  - intros value meanwhile s run; subst run.
    rewrite ImageUpload_onDrop_ok. split; [reflexivity|].
    unfold effects; cbn [snd]. rewrite !notified_app. cbn [notified].
    rewrite app_assoc. apply last_last.
  - intros rendered baseURL sel fresh s Hm run; subst run.
    destruct (RichTextEditor_insertImage_run blobUrl sel fresh rendered s)
      as (r & s1 & t1 & Hrun & _ & Hr & _).
    rewrite (Hr Hm) in Hrun.
    rewrite (RichTextEditor_upload_ok _ _ _ _ _ _ _ _ _ _ _ Hrun), Hrun.
    unfold final_state; cbn. split; [apply lookup_assoc_set | reflexivity].
Qed.

Lemma success_binds_server_url_witness :
  RichTextEditor.modelled (RichTextEditor.uploadedImages Scenario.draft) = true /\
  DOM.lookup Scenario.handle
    (RichTextEditor.uploadedImages
       (final_state
          (RichTextEditor.handleImageUpload Scenario.draft "https://api" [Scenario.photo] Scenario.handle
             Scenario.end_of_draft 7 idle (response true (data (JS.Str "/uploads/photo.png")))
             Scenario.draft)))
  = Some ("https://api" ++ JS.ToString (JS.Str "/uploads/photo.png")).
Proof.
  split; [reflexivity|].
  apply (proj2 (success_binds_server_url Scenario.photo [] Scenario.handle
                  (JS.Str "/uploads/photo.png"))
           Scenario.draft "https://api" Scenario.end_of_draft 7 Scenario.draft).
  reflexivity.
Defined.

(** *** The preview comes first *)



(** *** Reconciling the content *)

Lemma prefix_drop pat s :
  String.prefix pat s = true -> s = pat ++ JS.drop (String.length pat) s.
Proof.
  revert s. induction pat as [|c pat IH]; intros s H; [reflexivity|].
  destruct s as [|d s]; cbn in H |- *; [discriminate H|].
  revert H. destruct (Ascii.ascii_dec c d) as [->|]; intros H; [|discriminate H].
  f_equal. apply IH. exact H.
Qed.

Lemma split_first_cons c s pat :
  JS.split_first (String c s) pat =
    if String.prefix pat (String c s)
    then Some (EmptyString, JS.drop (String.length pat) (String c s))
    else match JS.split_first s pat with
         | Some (before, after) => Some (String c before, after)
         | None => None
         end.
Proof. reflexivity. Qed.

Lemma split_first_empty pat :
  JS.split_first EmptyString pat =
    if String.prefix pat EmptyString
    then Some (EmptyString, JS.drop (String.length pat) EmptyString)
    else None.
Proof. reflexivity. Qed.

(** [split_first] cuts the subject around an occurrence of the pattern. *)
Lemma split_first_spec s pat before after :
  JS.split_first s pat = Some (before, after) -> s = before ++ pat ++ after.
Proof.
  revert before. induction s as [|c s IH]; intros before H.
  - rewrite split_first_empty in H.
    destruct (String.prefix pat EmptyString) eqn:P; [|discriminate H].
    injection H as <- <-. apply (prefix_drop pat EmptyString P).
  - rewrite split_first_cons in H.
    destruct (String.prefix pat (String c s)) eqn:P.
    + injection H as <- <-. apply (prefix_drop pat (String c s) P).
    + destruct (JS.split_first s pat) as [[b a]|]; [|discriminate H].
      injection H as <- <-. cbn. f_equal. apply IH. reflexivity.
Qed.

Lemma includes_app_r a b pat : JS.includes b pat = true -> JS.includes (a ++ b) pat = true.
Proof.
  intros H. induction a as [|c a IH]; [exact H|].
  change (String.prefix pat (String c (a ++ b)) || JS.includes (a ++ b) pat = true).
  rewrite IH. apply orb_true_r.
Qed.

(** What [String.prototype.replace] leaves: the text after the first
    occurrence is copied, so a handle that occurs there again is still in
    the result. *)
Lemma replace_keeps_later_occurrences s pat v before after :
  JS.split_first s pat = Some (before, after) ->
  JS.includes after pat = true ->
  JS.includes (JS.replace s pat v) pat = true.
Proof.
  intros Hs Ha. unfold JS.replace. rewrite Hs.
  apply includes_app_r, includes_app_r. exact Ha.
Qed.

(** C1, where the editor with image controls misses it: the preview is
    inserted, the user pastes a copy of it while the request is
    outstanding, the upload succeeds.  The content at that time holds the
    handle twice; the content handed to the change callback is that
    content with [String.prototype.replace] applied, and still holds the
    handle once, next to one durable URL. *)
Theorem replace_reconciles_first_occurrence_only :
  forall parseHTML,
    let run := RichTextEditorImg.handleImageUpload parseHTML [Scenario.photo] Scenario.handle
                 Scenario.end_of_draft 7 8 Scenario.paste_preview_img
                 (response true (data (JS.Str Scenario.durable))) Scenario.draft_img in
    exists settled reconciled,
      RichTextEditorImg.editorRef
        (final_state
           (Scenario.paste_preview_img
              (final_state (RichTextEditorImg.insertImageAtCursor Scenario.end_of_draft 7 8
                              Scenario.handle Scenario.draft_img))))
      = Some settled /\
      JS.occurrences (DOM.innerHTML settled) Scenario.handle = 2 /\
      last (notified (effects run)) JS.Undefined = JS.Str reconciled /\
      reconciled = JS.replace (DOM.innerHTML settled) Scenario.handle (JS.Str Scenario.durable) /\
      JS.occurrences reconciled Scenario.handle = 1 /\
      JS.occurrences reconciled Scenario.durable = 1.
Proof.
  intros parseHTML run; subst run.
  do 2 eexists. split; [vm_compute; reflexivity|].
  split; [vm_compute; reflexivity|].
  split; [vm_compute; reflexivity|].
  split; [vm_compute; reflexivity|].
  split; vm_compute; reflexivity.
Qed.

(** The same scenario in RichTextEditor.tsx: once the map holds the pair,
    the global RegExp of [handleInput] replaces both occurrences. *)
Example RichTextEditor_replaces_every_occurrence :
  let uploaded :=
    final_state
      (RichTextEditor.handleImageUpload Scenario.draft EmptyString [Scenario.photo]
         Scenario.handle Scenario.end_of_draft 7 Scenario.paste_preview
         (response true (data (JS.Str Scenario.durable))) Scenario.draft) in
  exists content,
    notified (effects (RichTextEditor.handleInput uploaded uploaded)) = [JS.Str content] /\
    JS.occurrences content Scenario.handle = 0 /\
    JS.occurrences content Scenario.durable = 2.
Proof.
  cbv zeta. eexists. split; [vm_compute; reflexivity|]. split; vm_compute; reflexivity.
Qed.

(** ** Counting elements of the document *)

Section Counting.

Variable q : DOM.element -> bool.











End Counting.




(** ** The selected marker *)

Lemma lookup_assoc_set_other {A} k k' (v : A) l :
  String.eqb k k' = false -> DOM.lookup k (DOM.assoc_set k' v l) = DOM.lookup k l.
Proof.
  intros Hk. induction l as [|[k0 v0] l IH]; cbn.
  - rewrite Hk. reflexivity.
  - destruct (String.eqb k' k0) eqn:E; cbn.
    + apply String.eqb_eq in E. subst k0. rewrite Hk. reflexivity.
    + rewrite IH. reflexivity.
Qed.

Section Marker.

Import RichTextEditorImg.



Lemma contains_classList_add c e : DOM.contains c (DOM.classList_add c e) = true.
Proof.
  unfold DOM.classList_add. destruct (DOM.contains c e) eqn:E; [exact E|].
  unfold DOM.contains, DOM.classes. cbn [DOM.attributes DOM.with_attributes].
  rewrite lookup_assoc_set, existsb_app. cbn. rewrite String.eqb_refl.
  apply orb_true_iff. right. reflexivity.
Qed.



Lemma ident_classList_add c e : DOM.ident (DOM.classList_add c e) = DOM.ident e.
Proof. unfold DOM.classList_add. destruct (DOM.contains c e); reflexivity. Qed.

Lemma ident_classList_remove c e : DOM.ident (DOM.classList_remove c e) = DOM.ident e.
Proof.
  unfold DOM.classList_remove.
  destruct (DOM.lookup "class" (DOM.attributes e)) as [[v|l|l]|]; reflexivity.
Qed.

Lemma is_img_classList_remove c e : DOM.is_img (DOM.classList_remove c e) = DOM.is_img e.
Proof.
  unfold DOM.classList_remove.
  destruct (DOM.lookup "class" (DOM.attributes e)) as [[v|l|l]|]; reflexivity.
Qed.

Lemma is_img_classList_add c e : DOM.is_img (DOM.classList_add c e) = DOM.is_img e.
Proof. unfold DOM.classList_add. destruct (DOM.contains c e); reflexivity. Qed.




End Marker.

(** ** At most one selected image *)

Section Selection.

Import RichTextEditorImg EditorEvents.

Lemma same_node_ident i e e' : DOM.ident e' = DOM.ident e -> same_node i e' = same_node i e.
Proof. unfold same_node. intros ->. reflexivity. Qed.









End Selection.

Section Clicks.

Import RichTextEditorImg EditorEvents.








End Clicks.

(** * Further properties of the components *)

(** ** The widgets around the upload *)

(** The [finally] of [onDrop]: however the request settles and whatever
    the component did meanwhile, the dropped file leaves [uploading]
    false, in both widgets. *)
Theorem onDrop_resets_uploading :
  forall value file files blobUrl settle
         (meanwhile : M ImageUpload.state unit) (s : ImageUpload.state)
         (meanwhile' : M ImageUploadTabs.state unit) (s' : ImageUploadTabs.state),
    ImageUpload.uploading
      (final_state (ImageUpload.onDrop value (file :: files) blobUrl meanwhile settle s))
    = false /\
    ImageUploadTabs.uploading
      (final_state (ImageUploadTabs.onDrop (file :: files) blobUrl meanwhile' settle s'))
    = false.
Proof.
  intros. split.
  - destruct settle as [|[|] [|url]];
      rewrite ?ImageUpload_onDrop_bad_json, ?ImageUpload_onDrop_rejected,
        ?ImageUpload_onDrop_ok, ?ImageUpload_onDrop_not_ok; reflexivity.
  - destruct settle as [|[|] [|url]];
      rewrite ?ImageUploadTabs_onDrop_bad_json, ?ImageUploadTabs_onDrop_rejected,
        ?ImageUploadTabs_onDrop_ok, ?ImageUploadTabs_onDrop_not_ok; reflexivity.
Qed.

(** One dropped file costs one handle, one request and one notification,
    however the request settles, in both widgets. *)
Theorem onDrop_one_request_one_notification :
  forall value file files blobUrl settle (s : ImageUpload.state) (s' : ImageUploadTabs.state),
    let run := ImageUpload.onDrop value (file :: files) blobUrl idle settle s in
    let run' := ImageUploadTabs.onDrop (file :: files) blobUrl idle settle s' in
    (count (is_create blobUrl) (effects run) = 1 /\
     count is_fetch (effects run) = 1 /\
     count is_toast (effects run) = 1) /\
    (count (is_create blobUrl) (effects run') = 1 /\
     count is_fetch (effects run') = 1 /\
     count is_toast (effects run') = 1).
Proof.
  intros value file files blobUrl settle s s' run run'; subst run run'. split.
  - destruct settle as [|[|] [|url]];
      rewrite ?ImageUpload_onDrop_bad_json, ?ImageUpload_onDrop_rejected,
        ?ImageUpload_onDrop_ok, ?ImageUpload_onDrop_not_ok;
      unfold effects, count; cbn -[String.eqb]; rewrite String.eqb_refl;
      repeat split; reflexivity.
  - destruct settle as [|[|] [|url]];
      rewrite ?ImageUploadTabs_onDrop_bad_json, ?ImageUploadTabs_onDrop_rejected,
        ?ImageUploadTabs_onDrop_ok, ?ImageUploadTabs_onDrop_not_ok;
      unfold effects, count; cbn -[String.eqb]; rewrite String.eqb_refl;
      repeat split; reflexivity.
Qed.

(** A URL typed while the upload is outstanding does not survive the
    settlement in ImageUpload.tsx: a success puts the server's URL in the
    preview and the input and hands it to the callback after the typed
    one; a failure puts the preview back to the [value] of the drop while
    the input keeps the typed text. *)
Theorem ImageUpload_late_settlement_overrides_typed_url :
  forall value file files blobUrl typed url s,
    let run := fun settle =>
      ImageUpload.onDrop value (file :: files) blobUrl (ImageUpload.handleUrlChange typed)
        settle s in
    (final_state (run (response true (data url))) = ImageUpload.mkState false url url /\
     notified (effects (run (response true (data url)))) = [JS.Str typed; url]) /\
    (final_state (run rejected) = ImageUpload.mkState false (JS.Str typed) value /\
     notified (effects (run rejected)) = [JS.Str typed]).
Proof.
  intros value file files blobUrl typed url s run; subst run; cbv beta.
  rewrite ImageUpload_onDrop_ok, ImageUpload_onDrop_rejected.
  repeat split.
Qed.

(** The same in the tabbed widget, the typed URL handled by the render
    that shows the pending upload: after a success the callback has the
    server's URL last while preview and input show the typed one; after a
    failure preview and form value are empty, the typed URL is gone from
    both. *)
Theorem ImageUploadTabs_late_settlement_overrides_typed_url :
  forall file files blobUrl typed url s,
    let rendered := ImageUploadTabs.suspended s file blobUrl in
    let run := fun settle =>
      ImageUploadTabs.onDrop (file :: files) blobUrl
        (ImageUploadTabs.handleUrlChange rendered typed) settle s in
    (final_state (run (response true (data url)))
     = ImageUploadTabs.mkState false (JS.Str typed) (JS.Str typed) None
         (ImageUploadTabs.activeTab s) /\
     notified (effects (run (response true (data url))))
     = [JS.Str blobUrl; JS.Str typed; url]) /\
    (final_state (run rejected)
     = ImageUploadTabs.mkState false (JS.Str typed) (JS.Str EmptyString) None
         (ImageUploadTabs.activeTab s) /\
     notified (effects (run rejected))
     = [JS.Str blobUrl; JS.Str typed; JS.Str EmptyString]).
Proof.
  intros file files blobUrl typed url s rendered run; subst rendered run; cbv beta.
  rewrite ImageUploadTabs_onDrop_ok, ImageUploadTabs_onDrop_rejected.
  repeat split.
Qed.

(** [clearImage] empties the widget whatever it held: preview and input
    are the empty string, the callback is called once, with the empty
    string, and the preview of the render is released exactly when it is
    a blob URL; in both widgets. *)
Theorem clearImage_empties :
  forall (rendered s : ImageUpload.state) (rendered' s' : ImageUploadTabs.state),
    let run := ImageUpload.clearImage rendered s in
    let run' := ImageUploadTabs.clearImage rendered' s' in
    (ImageUpload.previewUrl (final_state run) = JS.Str EmptyString /\
     ImageUpload.urlInput (final_state run) = JS.Str EmptyString /\
     notified (effects run) = [JS.Str EmptyString] /\
     filter (fun e => match e with URL_revokeObjectURL _ => true | _ => false end) (effects run)
     = if JS.isBlob (ImageUpload.previewUrl rendered)
       then [URL_revokeObjectURL (ImageUpload.previewUrl rendered)] else []) /\
    (ImageUploadTabs.previewUrl (final_state run') = JS.Str EmptyString /\
     ImageUploadTabs.urlInput (final_state run') = JS.Str EmptyString /\
     ImageUploadTabs.localImageFile (final_state run') = None /\
     notified (effects run') = [JS.Str EmptyString] /\
     filter (fun e => match e with URL_revokeObjectURL _ => true | _ => false end) (effects run')
     = if JS.isBlob (ImageUploadTabs.previewUrl rendered')
       then [URL_revokeObjectURL (ImageUploadTabs.previewUrl rendered')] else []).
Proof.
  intros rendered s rendered' s' run run'; subst run run'.
  unfold ImageUpload.clearImage, ImageUploadTabs.clearImage.
  destruct (JS.isBlob (ImageUpload.previewUrl rendered));
    destruct (JS.isBlob (ImageUploadTabs.previewUrl rendered')); repeat split.
Qed.

(** Clearing while the upload is outstanding does not stop it: in
    ImageUpload.tsx a late success fills preview and input with the
    server's URL again and hands it to the callback after the empty
    string. *)
Theorem ImageUpload_late_success_undoes_clear :
  forall value file files blobUrl url s,
    let rendered := ImageUpload.suspended s blobUrl in
    let run := ImageUpload.onDrop value (file :: files) blobUrl
                 (ImageUpload.clearImage rendered) (response true (data url)) s in
    final_state run = ImageUpload.mkState false url url /\
    notified (effects run) = [JS.Str EmptyString; url].
Proof.
  intros value file files blobUrl url s rendered run; subst rendered run.
  rewrite ImageUpload_onDrop_ok.
  unfold ImageUpload.clearImage, ImageUpload.suspended; cbn [ImageUpload.previewUrl].
  destruct (JS.isBlob (JS.Str blobUrl)); repeat split.
Qed.

(** In ImageUpload.tsx [handleUrlChange] releases nothing itself; a blob
    preview it replaces is released by the cleanup of the preview effect
    when React renders the typed URL, once. *)
Theorem ImageUpload_typed_url_releases_preview_once :
  forall typed s,
    JS.isBlob (ImageUpload.previewUrl s) = true ->
    JS.value_eqb (ImageUpload.previewUrl s) (JS.Str typed) = false ->
    let run := ImageUpload.handleUrlChange typed s in
    final_state run = ImageUpload.mkState (ImageUpload.uploading s) (JS.Str typed) (JS.Str typed) /\
    notified (effects run) = [JS.Str typed] /\
    (effects run ++ ImageUpload.rerender s (final_state run))%list
    = [preview_set (JS.Str typed); call_onChange (JS.Str typed);
       URL_revokeObjectURL (ImageUpload.previewUrl s)].
Proof.
  intros typed s Hblob Hne run; subst run.
  unfold ImageUpload.rerender, ImageUpload.cleanup. cbn. rewrite Hne, Hblob.
  repeat split.
Qed.

Lemma ImageUpload_typed_url_releases_preview_once_witness :
  JS.isBlob (ImageUpload.previewUrl
               (ImageUpload.suspended (ImageUpload.initial (JS.Str EmptyString))
                  Scenario.handle)) = true /\
  JS.value_eqb
    (ImageUpload.previewUrl
       (ImageUpload.suspended (ImageUpload.initial (JS.Str EmptyString)) Scenario.handle))
    (JS.Str Scenario.durable) = false /\
  notified
    (effects (ImageUpload.handleUrlChange Scenario.durable
                (ImageUpload.suspended (ImageUpload.initial (JS.Str EmptyString))
                   Scenario.handle)))
  = [JS.Str Scenario.durable].
Proof.
  split; [reflexivity|]. split; [reflexivity|].
  apply (ImageUpload_typed_url_releases_preview_once Scenario.durable
           (ImageUpload.suspended (ImageUpload.initial (JS.Str EmptyString)) Scenario.handle));
    reflexivity.
Defined.

(** The tabbed widget keeps [localImageFile] after a successful upload:
    once the parent has fed the server's URL back as [value], the next
    typed URL makes the widget call [URL.revokeObjectURL] on the server's
    URL. *)
Theorem ImageUploadTabs_typed_url_after_upload_revokes_server_url :
  forall file files blobUrl url typed s,
    JS.truthy url = true ->
    let uploaded := final_state (ImageUploadTabs.onDrop (file :: files) blobUrl idle
                                   (response true (data url)) s) in
    let fed_back := final_state (ImageUploadTabs.valueEffect url uploaded) in
    ImageUploadTabs.localImageFile fed_back = Some file /\
    ImageUploadTabs.previewUrl fed_back = url /\
    effects (ImageUploadTabs.handleUrlChange fed_back typed fed_back)
    = [preview_set (JS.Str typed); call_onChange (JS.Str typed); URL_revokeObjectURL url].
Proof.
  intros file files blobUrl url typed s Hurl uploaded fed_back; subst uploaded fed_back.
  rewrite ImageUploadTabs_onDrop_ok.
  unfold ImageUploadTabs.valueEffect. rewrite Hurl. repeat split.
Qed.

Lemma ImageUploadTabs_typed_url_after_upload_revokes_server_url_witness :
  JS.truthy (JS.Str Scenario.durable) = true /\
  effects
    (ImageUploadTabs.handleUrlChange
       (final_state
          (ImageUploadTabs.valueEffect (JS.Str Scenario.durable)
             (final_state (ImageUploadTabs.onDrop [Scenario.photo] Scenario.handle idle
                             (response true (data (JS.Str Scenario.durable)))
                             ImageUploadTabs.initial))))
       Scenario.previous
       (final_state
          (ImageUploadTabs.valueEffect (JS.Str Scenario.durable)
             (final_state (ImageUploadTabs.onDrop [Scenario.photo] Scenario.handle idle
                             (response true (data (JS.Str Scenario.durable)))
                             ImageUploadTabs.initial)))))
  = [preview_set (JS.Str Scenario.previous); call_onChange (JS.Str Scenario.previous);
     URL_revokeObjectURL (JS.Str Scenario.durable)].
Proof.
  split; [reflexivity|].
  apply (ImageUploadTabs_typed_url_after_upload_revokes_server_url Scenario.photo []
           Scenario.handle (JS.Str Scenario.durable) Scenario.previous ImageUploadTabs.initial).
  reflexivity.
Defined.

(** The effect on [value] takes over a [value] that is set and ignores
    one that is empty or undefined: when the parent resets the field, the
    widget keeps its preview and its input; in both widgets. *)
Theorem valueEffect_ignores_empty_value :
  forall value (s : ImageUpload.state) (s' : ImageUploadTabs.state),
    (ImageUpload.previewUrl (final_state (ImageUpload.valueEffect value s))
     = (if JS.truthy value then value else ImageUpload.previewUrl s) /\
     ImageUpload.urlInput (final_state (ImageUpload.valueEffect value s))
     = (if JS.truthy value then value else ImageUpload.urlInput s) /\
     notified (effects (ImageUpload.valueEffect value s)) = []) /\
    (ImageUploadTabs.previewUrl (final_state (ImageUploadTabs.valueEffect value s'))
     = (if JS.truthy value then value else ImageUploadTabs.previewUrl s') /\
     ImageUploadTabs.urlInput (final_state (ImageUploadTabs.valueEffect value s'))
     = (if JS.truthy value then value else ImageUploadTabs.urlInput s') /\
     ImageUploadTabs.localImageFile (final_state (ImageUploadTabs.valueEffect value s'))
     = ImageUploadTabs.localImageFile s' /\
     notified (effects (ImageUploadTabs.valueEffect value s')) = []).
Proof.
  intros value s s'.
  unfold ImageUpload.valueEffect, ImageUploadTabs.valueEffect.
  destruct (JS.truthy value); repeat split.
Qed.

(** The tabbed widget never releases the handle of a successful upload in
    the handler: the preview stays the handle, and it is the cleanup of
    the preview effect that releases it, once, when the handle is a blob
    URL (here as the component goes away). *)
Theorem ImageUploadTabs_success_released_at_unmount :
  forall file files blobUrl url s,
    let run := ImageUploadTabs.onDrop (file :: files) blobUrl idle (response true (data url)) s in
    count (is_revoke blobUrl) (effects run) = 0 /\
    ImageUploadTabs.previewUrl (final_state run) = JS.Str blobUrl /\
    count (is_revoke blobUrl) (ImageUploadTabs.unmount (final_state run))
    = if JS.isBlob (JS.Str blobUrl) then 1 else 0.
Proof.
  intros file files blobUrl url s run; subst run.
  rewrite ImageUploadTabs_onDrop_ok.
  unfold ImageUploadTabs.unmount, ImageUploadTabs.cleanup, final_state, effects.
  cbn [fst snd ImageUploadTabs.previewUrl idle ret ImageUploadTabs.suspended].
  split; [reflexivity|]. split; [reflexivity|].
  destruct (JS.isBlob (JS.Str blobUrl)); [|reflexivity].
  unfold count; cbn -[String.eqb]. rewrite String.eqb_refl. reflexivity.
Qed.

(** The badge over the preview.  In ImageUpload.tsx it follows the
    preview string: shown while the handle is previewed, then decided by
    the server's URL or by [value].  In the tabbed widget it follows
    [uploading]: shown during the request, hidden once it settled, also
    while the preview is still the handle. *)
Theorem loading_badge_follows_the_upload :
  forall value file files blobUrl url settle (s : ImageUpload.state) (s' : ImageUploadTabs.state),
    (Rendered.ImageUpload_loading_badge (ImageUpload.suspended s blobUrl)
     = JS.isBlob (JS.Str blobUrl) /\
     Rendered.ImageUpload_loading_badge
       (final_state (ImageUpload.onDrop value (file :: files) blobUrl idle
                       (response true (data url)) s))
     = JS.isBlob url /\
     Rendered.ImageUpload_loading_badge
       (final_state (ImageUpload.onDrop value (file :: files) blobUrl idle rejected s))
     = JS.isBlob value) /\
    (Rendered.ImageUploadTabs_loading_badge (ImageUploadTabs.suspended s' file blobUrl)
     = JS.truthy (JS.Str blobUrl) /\
     Rendered.ImageUploadTabs_loading_badge
       (final_state (ImageUploadTabs.onDrop (file :: files) blobUrl idle settle s'))
     = false).
Proof.
  intros value file files blobUrl url settle s s'. split.
  - rewrite ImageUpload_onDrop_ok, ImageUpload_onDrop_rejected. repeat split.
  - split.
    + unfold Rendered.ImageUploadTabs_loading_badge. cbn. apply andb_true_r.
    + unfold Rendered.ImageUploadTabs_loading_badge.
      destruct settle as [|[|] [|u]];
        rewrite ?ImageUploadTabs_onDrop_bad_json, ?ImageUploadTabs_onDrop_rejected,
          ?ImageUploadTabs_onDrop_ok, ?ImageUploadTabs_onDrop_not_ok;
        apply andb_false_r.
Qed.

(** ** Reconciling with [String.prototype.replace] *)

Lemma drop_app_length a b : JS.drop (String.length a) (a ++ b) = b.
Proof. induction a as [|c a IH]; [reflexivity | exact IH]. Qed.

Lemma prefix_app pat x : String.prefix pat (pat ++ x) = true.
Proof.
  induction pat as [|c pat IH]; [destruct x; reflexivity|].
  cbn. destruct (Ascii.ascii_dec c c) as [_|Hc]; [exact IH | contradiction].
Qed.

Lemma split_first_at_start s pat :
  String.prefix pat s = true ->
  JS.split_first s pat = Some (EmptyString, JS.drop (String.length pat) s).
Proof.
  intros H. destruct s as [|c s].
  - rewrite split_first_empty, H. reflexivity.
  - rewrite split_first_cons, H. reflexivity.
Qed.

(** [split_first] finds the occurrence no other occurrence precedes. *)
Lemma split_first_first before pat after :
  none_before (String.length before) (before ++ pat ++ after) pat ->
  JS.split_first (before ++ pat ++ after) pat = Some (before, after).
Proof.
  induction before as [|c before IH]; intros Hnone.
  - cbn [append]. rewrite split_first_at_start by apply prefix_app.
    rewrite drop_app_length. reflexivity.
  - cbn [append]. rewrite split_first_cons.
    assert (H0 : String.prefix pat (String c (before ++ pat ++ after)) = false).
    { apply (Hnone 0). cbn. lia. }
    rewrite H0, IH; [reflexivity|].
    intros k Hk. apply (Hnone (S k)). cbn. lia.
Qed.

Lemma split_first_absent s pat : JS.includes s pat = false -> JS.split_first s pat = None.
Proof.
  induction s as [|c s IH]; intros H.
  - rewrite split_first_empty.
    change (String.prefix pat EmptyString || false = false) in H.
    rewrite orb_false_r in H. rewrite H. reflexivity.
  - rewrite split_first_cons.
    change (String.prefix pat (String c s) || JS.includes s pat = false) in H.
    apply orb_false_elim in H as [H1 H2]. rewrite H1, (IH H2). reflexivity.
Qed.

Lemma GetSubstitution_plain matched before after t :
  plain t = true -> JS.GetSubstitution matched before after t = t.
Proof.
  induction t as [|c t IH]; intros H; [reflexivity|].
  cbn [plain] in H. apply andb_prop in H as [Hc Ht].
  cbn [JS.GetSubstitution]. apply negb_true_iff in Hc. rewrite Hc, (IH Ht). reflexivity.
Qed.

Lemma GetSubstitution_after_plain matched before after u t :
  plain u = true ->
  JS.GetSubstitution matched before after (u ++ t)
  = u ++ JS.GetSubstitution matched before after t.
Proof.
  induction u as [|c u IH]; intros H; [reflexivity|].
  cbn [plain] in H. apply andb_prop in H as [Hc Hu].
  cbn [append JS.GetSubstitution]. apply negb_true_iff in Hc. rewrite Hc, (IH Hu).
  reflexivity.
Qed.

Section Reconciliation.

Variables (parseHTML : string -> list DOM.node).
Variables (file : File) (files : list File) (blobUrl : string).
Variables (sel : DOM.selection) (fresh fresh_br : nat).
Variables (meanwhile : M RichTextEditorImg.state unit) (s : RichTextEditorImg.state).

(** [getRangeAt(0)] does not throw. *)
Hypothesis has_range : sel <> DOM.no_range.

Lemma reconciled_content url doc :
  RichTextEditorImg.editorRef
    (final_state (meanwhile (final_state (RichTextEditorImg.insertImageAtCursor sel fresh
                                            fresh_br blobUrl s))))
  = Some doc ->
  last (notified
          (effects (RichTextEditorImg.handleImageUpload parseHTML (file :: files) blobUrl sel
                      fresh fresh_br meanwhile (response true (data url)) s)))
       JS.Undefined
  = JS.Str (JS.replace (DOM.innerHTML doc) blobUrl url).
Proof.
  intros Hdoc.
  destruct (RichTextEditorImg_insert_run blobUrl sel fresh fresh_br s)
    as (r & s1 & t1 & Hrun & [-> | [_ Hsel]] & _); [|contradiction].
  rewrite Hrun in Hdoc. unfold final_state at 2 in Hdoc. cbn [fst snd] in Hdoc.
  rewrite (RichTextEditorImg_upload_ok _ _ _ _ _ _ _ _ _ _ _ Hrun), Hdoc.
  cbn [notified]. rewrite !notified_app. cbn [notified app].
  rewrite ?app_nil_r, ?app_assoc. apply last_last.
Qed.

End Reconciliation.

(** In the image editor, when the preview is no longer in the document
    at the time the upload succeeds (the user removed it meanwhile), the
    content handed to the callback is the document as it is. *)
Theorem reconciliation_without_handle_changes_nothing :
  forall parseHTML file files blobUrl sel fresh fresh_br meanwhile s url doc,
    sel <> DOM.no_range ->
    RichTextEditorImg.editorRef
      (final_state (meanwhile (final_state (RichTextEditorImg.insertImageAtCursor sel fresh
                                              fresh_br blobUrl s))))
    = Some doc ->
    JS.includes (DOM.innerHTML doc) blobUrl = false ->
    last (notified
            (effects (RichTextEditorImg.handleImageUpload parseHTML (file :: files) blobUrl sel
                        fresh fresh_br meanwhile (response true (data url)) s)))
         JS.Undefined
    = JS.Str (DOM.innerHTML doc).
Proof.
  intros parseHTML file files blobUrl sel fresh fresh_br meanwhile s url doc Hsel Hdoc Habs.
  rewrite (reconciled_content parseHTML file files blobUrl sel fresh fresh_br meanwhile s
             Hsel url doc Hdoc).
  unfold JS.replace. rewrite (split_first_absent _ _ Habs). reflexivity.
Qed.

(** With a server URL free of [$], the content handed to the callback on
    success is the content at that time with the first occurrence of the
    handle replaced by the URL, everything before and after it kept. *)
Theorem reconciliation_replaces_first_occurrence :
  forall parseHTML file files blobUrl sel fresh fresh_br meanwhile s url doc before after,
    sel <> DOM.no_range ->
    RichTextEditorImg.editorRef
      (final_state (meanwhile (final_state (RichTextEditorImg.insertImageAtCursor sel fresh
                                              fresh_br blobUrl s))))
    = Some doc ->
    DOM.innerHTML doc = before ++ blobUrl ++ after ->
    none_before (String.length before) (DOM.innerHTML doc) blobUrl ->
    plain url = true ->
    last (notified
            (effects (RichTextEditorImg.handleImageUpload parseHTML (file :: files) blobUrl sel
                        fresh fresh_br meanwhile (response true (data (JS.Str url))) s)))
         JS.Undefined
    = JS.Str (before ++ url ++ after).
Proof.
  intros parseHTML file files blobUrl sel fresh fresh_br meanwhile s url doc before after
         Hsel Hdoc Hhtml Hfirst Hplain.
  rewrite (reconciled_content parseHTML file files blobUrl sel fresh fresh_br meanwhile s
             Hsel (JS.Str url) doc Hdoc).
  rewrite Hhtml in *. unfold JS.replace.
  rewrite (split_first_first _ _ _ Hfirst). cbn [JS.ToString].
  rewrite GetSubstitution_plain by exact Hplain. reflexivity.
Qed.

(** The server's URL is a replacement template: where it holds [$&] the
    handle is written back into the content, and [$$] comes out as one
    [$]. *)
Theorem reconciliation_expands_dollar_patterns :
  forall parseHTML file files blobUrl sel fresh fresh_br meanwhile s doc before after u1 u2,
    sel <> DOM.no_range ->
    RichTextEditorImg.editorRef
      (final_state (meanwhile (final_state (RichTextEditorImg.insertImageAtCursor sel fresh
                                              fresh_br blobUrl s))))
    = Some doc ->
    DOM.innerHTML doc = before ++ blobUrl ++ after ->
    none_before (String.length before) (DOM.innerHTML doc) blobUrl ->
    plain u1 = true -> plain u2 = true ->
    let content := fun url =>
      last (notified
              (effects (RichTextEditorImg.handleImageUpload parseHTML (file :: files) blobUrl
                          sel fresh fresh_br meanwhile (response true (data (JS.Str url))) s)))
           JS.Undefined in
    content (u1 ++ "$&" ++ u2) = JS.Str (before ++ (u1 ++ blobUrl ++ u2) ++ after) /\
    content (u1 ++ "$$" ++ u2) = JS.Str (before ++ (u1 ++ "$" ++ u2) ++ after).
Proof.
  intros parseHTML file files blobUrl sel fresh fresh_br meanwhile s doc before after u1 u2
         Hsel Hdoc Hhtml Hfirst H1 H2 content; subst content; cbv beta.
  rewrite !(reconciled_content parseHTML file files blobUrl sel fresh fresh_br meanwhile s
              Hsel _ doc Hdoc).
  rewrite Hhtml in *. unfold JS.replace.
  rewrite (split_first_first _ _ _ Hfirst). cbn [JS.ToString].
  split.
  - rewrite (GetSubstitution_after_plain _ _ _ u1 ("$&" ++ u2) H1).
    cbn [append JS.GetSubstitution]. cbn [Ascii.eqb Bool.eqb].
    rewrite GetSubstitution_plain by exact H2. reflexivity.
  - rewrite (GetSubstitution_after_plain _ _ _ u1 ("$$" ++ u2) H1).
    cbn [append JS.GetSubstitution]. cbn [Ascii.eqb Bool.eqb].
    rewrite GetSubstitution_plain by exact H2. reflexivity.
Qed.

Lemma reconciliation_without_handle_changes_nothing_witness :
  Scenario.end_of_draft <> DOM.no_range /\
  RichTextEditorImg.editorRef
    (final_state
       (Edits.delete_preview
          (final_state (RichTextEditorImg.insertImageAtCursor Scenario.end_of_draft 7 8
                          Scenario.handle Scenario.draft_img))))
  = Some [Scenario.paragraph] /\
  JS.includes (DOM.innerHTML [Scenario.paragraph]) Scenario.handle = false /\
  last (notified
          (effects (RichTextEditorImg.handleImageUpload (fun _ => []) [Scenario.photo]
                      Scenario.handle Scenario.end_of_draft 7 8 Edits.delete_preview
                      (response true (data (JS.Str Scenario.durable))) Scenario.draft_img)))
       JS.Undefined
  = JS.Str (DOM.innerHTML [Scenario.paragraph]).
Proof.
  assert (H1 : Scenario.end_of_draft <> DOM.no_range) by discriminate.
  split; [exact H1|]. split; [reflexivity|]. split; [vm_compute; reflexivity|].
  apply (reconciliation_without_handle_changes_nothing (fun _ => []) Scenario.photo []
           Scenario.handle Scenario.end_of_draft 7 8 Edits.delete_preview Scenario.draft_img
           (JS.Str Scenario.durable) [Scenario.paragraph] H1);
    [reflexivity | vm_compute; reflexivity].
Defined.

Lemma preview_is_first_occurrence :
  DOM.innerHTML Edits.draft_with_preview
  = Edits.before_handle ++ Scenario.handle ++ Edits.after_handle /\
  none_before (String.length Edits.before_handle) (DOM.innerHTML Edits.draft_with_preview)
    Scenario.handle.
Proof.
  split; [vm_compute; reflexivity|].
  intros k Hk. change (String.length Edits.before_handle) with 22 in Hk.
  do 22 (destruct k as [|k]; [vm_compute; reflexivity|]). lia.
Qed.

Lemma reconciliation_replaces_first_occurrence_witness :
  Scenario.end_of_draft <> DOM.no_range /\
  RichTextEditorImg.editorRef
    (final_state
       (idle (final_state (RichTextEditorImg.insertImageAtCursor Scenario.end_of_draft 7 8
                             Scenario.handle Scenario.draft_img))))
  = Some Edits.draft_with_preview /\
  plain Scenario.durable = true /\
  last (notified
          (effects (RichTextEditorImg.handleImageUpload (fun _ => []) [Scenario.photo]
                      Scenario.handle Scenario.end_of_draft 7 8 idle
                      (response true (data (JS.Str Scenario.durable))) Scenario.draft_img)))
       JS.Undefined
  = JS.Str (Edits.before_handle ++ Scenario.durable ++ Edits.after_handle).
Proof.
  assert (H1 : Scenario.end_of_draft <> DOM.no_range) by discriminate.
  split; [exact H1|]. split; [reflexivity|]. split; [reflexivity|].
  apply (reconciliation_replaces_first_occurrence (fun _ => []) Scenario.photo []
           Scenario.handle Scenario.end_of_draft 7 8 idle Scenario.draft_img
           Scenario.durable Edits.draft_with_preview Edits.before_handle Edits.after_handle H1);
    [reflexivity | apply preview_is_first_occurrence | apply preview_is_first_occurrence
     | reflexivity].
Defined.

Lemma reconciliation_expands_dollar_patterns_witness :
  Scenario.end_of_draft <> DOM.no_range /\
  plain "https://cdn/x/" = true /\ plain ".png" = true /\
  last (notified
          (effects (RichTextEditorImg.handleImageUpload (fun _ => []) [Scenario.photo]
                      Scenario.handle Scenario.end_of_draft 7 8 idle
                      (response true (data (JS.Str ("https://cdn/x/" ++ "$&" ++ ".png"))))
                      Scenario.draft_img)))
       JS.Undefined
  = JS.Str (Edits.before_handle ++ ("https://cdn/x/" ++ Scenario.handle ++ ".png")
              ++ Edits.after_handle).
Proof.
  assert (H1 : Scenario.end_of_draft <> DOM.no_range) by discriminate.
  split; [exact H1|]. split; [reflexivity|]. split; [reflexivity|].
  apply (reconciliation_expands_dollar_patterns (fun _ => []) Scenario.photo []
           Scenario.handle Scenario.end_of_draft 7 8 idle Scenario.draft_img
           Edits.draft_with_preview Edits.before_handle Edits.after_handle
           "https://cdn/x/" ".png" H1);
    [reflexivity | apply preview_is_first_occurrence | apply preview_is_first_occurrence
     | reflexivity | reflexivity].
Defined.

(** ** Edges of the editors' upload *)

(** In the image editor a selection without a range stops the upload at
    [getRangeAt(0)]: the handle is allocated, the failure notification is
    shown, and that is all; no image is inserted, no request is issued,
    the callback is not called and the handle is not released, whatever
    would have come back. *)
Theorem upload_without_range_stops_before_request :
  forall parseHTML file files blobUrl fresh fresh_br meanwhile settle doc focused selected,
    RichTextEditorImg.handleImageUpload parseHTML (file :: files) blobUrl DOM.no_range fresh
      fresh_br meanwhile settle (RichTextEditorImg.mkState (Some doc) focused selected)
    = (normal tt, RichTextEditorImg.mkState (Some doc) true selected,
       [URL_createObjectURL file blobUrl; call_toast ImageUploadError]).
Proof. reflexivity. Qed.

(** When the editor is no longer mounted as the file is chosen, both
    editors still upload it: one request is issued, the document stays
    absent and the callback is never called, however the request
    settles. *)
Theorem upload_into_unmounted_editor :
  forall parseHTML rendered baseURL file files blobUrl sel fresh fresh_br settle
         focused m selected,
    let run := RichTextEditor.handleImageUpload rendered baseURL (file :: files) blobUrl sel
                 fresh idle settle (RichTextEditor.mkState None focused m) in
    let run' := RichTextEditorImg.handleImageUpload parseHTML (file :: files) blobUrl sel
                  fresh fresh_br idle settle
                  (RichTextEditorImg.mkState None focused selected) in
    (count is_fetch (effects run) = 1 /\ notified (effects run) = [] /\
     RichTextEditor.editorRef (final_state run) = None) /\
    (count is_fetch (effects run') = 1 /\ notified (effects run') = [] /\
     final_state run' = RichTextEditorImg.mkState None focused selected).
Proof.
  intros. subst run run'.
  split; destruct sel; destruct settle as [|[|] [|url]]; repeat split.
Qed.

(** ** The registry of uploaded images in RichTextEditor.tsx *)







(** ** Reconciling with the global RegExp of [handleInput] *)

Lemma RegExp_cons c rest p :
  JS.RegExp (String c rest) = Some p ->
  exists p', JS.RegExp rest = Some p' /\
             p = (if Ascii.eqb c "." then JS.AnyChar else JS.Lit c) :: p'.
Proof.
  cbn [JS.RegExp]. destruct (JS.syntax_character c); [discriminate|].
  destruct (JS.RegExp rest) as [p'|]; [|discriminate].
  intros H. injection H as <-. exists p'. split; reflexivity.
Qed.

(** A source without [.] matches where it is a prefix, and only there. *)
Lemma match_here_literal source :
  forall p s, JS.RegExp source = Some p -> literal source = true ->
              JS.match_here p s = String.prefix source s.
Proof.
  induction source as [|c source IH]; intros p s Hp Hlit.
  - injection Hp as <-. destruct s; reflexivity.
  - apply RegExp_cons in Hp as (p' & Hp' & ->).
    cbn [literal] in Hlit. apply andb_prop in Hlit as [Hc Hlit].
    apply negb_true_iff in Hc. rewrite Hc.
    destruct s as [|d s]; [reflexivity|].
    cbn [JS.match_here JS.atom_matches String.prefix].
    destruct (Ascii.ascii_dec c d) as [->|Hne].
    + rewrite Ascii.eqb_refl. apply IH; assumption.
    + apply Ascii.eqb_neq in Hne. rewrite Hne. reflexivity.
Qed.

Lemma replace_scan_without_match p t :
  forall s before,
    (forall k, JS.match_here p (JS.drop k s) = false) ->
    JS.replace_scan p t before 0 s = s.
Proof.
  induction s as [|c s IH]; intros before Hnone.
  - pose proof (Hnone 0) as H0. cbn [JS.drop] in H0.
    cbn [JS.replace_scan]. rewrite H0, andb_false_r. reflexivity.
  - pose proof (Hnone 0) as H0. cbn [JS.drop] in H0.
    cbn [JS.replace_scan]. rewrite H0.
    rewrite IH; [reflexivity|]. intros k. apply (Hnone (S k)).
Qed.

Lemma includes_drop s pat :
  JS.includes s pat = false -> forall k, String.prefix pat (JS.drop k s) = false.
Proof.
  induction s as [|c s IH]; intros H k.
  - change (String.prefix pat EmptyString || false = false) in H.
    rewrite orb_false_r in H. destruct k; exact H.
  - change (String.prefix pat (String c s) || JS.includes s pat = false) in H.
    apply orb_false_elim in H as [H1 H2].
    destruct k as [|k]; [exact H1 | apply (IH H2 k)].
Qed.

Lemma replace_RegExp_g_absent s source v p :
  JS.RegExp source = Some p -> literal source = true ->
  JS.includes s source = false ->
  JS.replace_RegExp_g s source v = Some s.
Proof.
  intros Hp Hlit Habs. unfold JS.replace_RegExp_g. rewrite Hp. f_equal.
  apply replace_scan_without_match. intros k.
  rewrite (match_here_literal source p _ Hp Hlit). apply includes_drop. exact Habs.
Qed.

(** In RichTextEditor.tsx [handleInput] hands the content over as it is
    when none of the registered handles occurs in it (handles without
    [.]): nothing is reconciled where nothing is pending. *)
Theorem handleInput_without_handles_passes_content :
  forall rendered s doc,
    RichTextEditor.editorRef s = Some doc ->
    Forall (fun kv => JS.RegExp (fst kv) <> None /\ literal (fst kv) = true /\
                      JS.includes (DOM.innerHTML doc) (fst kv) = false)
           (RichTextEditor.uploadedImages rendered) ->
    RichTextEditor.handleInput rendered s
    = (normal tt, s, [call_onChange (JS.Str (DOM.innerHTML doc))]).
Proof.
  intros rendered s doc Hdoc Hkeys.
  unfold RichTextEditor.handleInput, bind, get. rewrite Hdoc.
  assert (H : RichTextEditor.replace_uploaded (RichTextEditor.uploadedImages rendered)
                (DOM.innerHTML doc) = Some (DOM.innerHTML doc)).
  { induction Hkeys as [|[k v] m (Hre & Hlit & Habs) _ IH]; [reflexivity|].
    cbn [RichTextEditor.replace_uploaded fst] in *.
    destruct (JS.RegExp k) as [p|] eqn:Hp; [|congruence].
    rewrite (replace_RegExp_g_absent _ _ _ p Hp Hlit Habs). exact IH. }
  rewrite H. reflexivity.
Qed.

Lemma handleInput_without_handles_passes_content_witness :
  RichTextEditor.editorRef Scenario.draft = Some [Scenario.paragraph] /\
  notified
    (effects
       (RichTextEditor.handleInput
          (RichTextEditor.mkState (Some [Scenario.paragraph]) true
             [(Scenario.handle, Scenario.durable)])
          Scenario.draft))
  = [JS.Str (DOM.innerHTML [Scenario.paragraph])].
Proof.
  split; [reflexivity|].
  rewrite (handleInput_without_handles_passes_content
             (RichTextEditor.mkState (Some [Scenario.paragraph]) true
                [(Scenario.handle, Scenario.durable)])
             Scenario.draft [Scenario.paragraph] eq_refl).
  - reflexivity.
  - constructor; [|constructor].
    split; [discriminate|]. split; vm_compute; reflexivity.
Defined.

Lemma RegExp_length source : forall p, JS.RegExp source = Some p -> length p = String.length source.
Proof.
  induction source as [|c source IH]; intros p Hp.
  - injection Hp as <-. reflexivity.
  - apply RegExp_cons in Hp as (p' & Hp' & ->). cbn. f_equal. apply IH. exact Hp'.
Qed.

(** The pattern made from a source matches the source itself. *)
Lemma RegExp_matches_source source :
  forall p rest, JS.RegExp source = Some p -> JS.match_here p (source ++ rest) = true.
Proof.
  induction source as [|c source IH]; intros p rest Hp.
  - injection Hp as <-. reflexivity.
  - apply RegExp_cons in Hp as (p' & Hp' & ->).
    cbn [append JS.match_here]. rewrite (IH p' rest Hp'), andb_true_r.
    destruct (Ascii.eqb c ".") eqn:E; cbn [JS.atom_matches].
    + apply Ascii.eqb_eq in E. subst c. reflexivity.
    + apply Ascii.eqb_refl.
Qed.

Lemma RegExp_matches_any a :
  forall b c p, JS.RegExp (a ++ String "." b) = Some p ->
                JS.line_terminator c = false ->
                JS.match_here p (a ++ String c b) = true.
Proof.
  induction a as [|x a IH]; intros b c p Hp Hc.
  - cbn [append] in *. apply RegExp_cons in Hp as (p' & Hp' & ->).
    cbn [JS.match_here JS.atom_matches Ascii.eqb Bool.eqb]. rewrite Hc. cbn [negb andb].
    rewrite <- (RegExp_matches_source b p' EmptyString Hp').
    f_equal. clear. induction b as [|y b IH]; [reflexivity | cbn; now rewrite <- IH].
  - cbn [append] in *. apply RegExp_cons in Hp as (p' & Hp' & ->).
    cbn [JS.match_here]. rewrite (IH b c p' Hp' Hc), andb_true_r.
    destruct (Ascii.eqb x ".") eqn:E; cbn [JS.atom_matches].
    + apply Ascii.eqb_eq in E. subst x. reflexivity.
    + apply Ascii.eqb_refl.
Qed.

Lemma replace_scan_skips p t :
  forall s before, JS.match_here p EmptyString = false ->
                   JS.replace_scan p t before (String.length s) s = EmptyString.
Proof.
  induction s as [|c s IH]; intros before Hp.
  - cbn [JS.replace_scan String.length]. rewrite Hp, andb_false_r. reflexivity.
  - cbn [JS.replace_scan String.length]. apply IH. exact Hp.
Qed.

Lemma take_all s : JS.take (String.length s) s = s.
Proof. induction s as [|c s IH]; [reflexivity | cbn; now rewrite IH]. Qed.

Lemma drop_all s : JS.drop (String.length s) s = EmptyString.
Proof. induction s as [|c s IH]; [reflexivity | exact IH]. Qed.

Lemma length_app_dot a b c :
  String.length (a ++ String c b) = String.length (a ++ String "." b).
Proof. induction a as [|x a IH]; [reflexivity | cbn; now rewrite IH]. Qed.

(** The handle is used as a pattern, not as a text: where it holds a
    [.], content that differs from the handle in that character is
    replaced by the server's URL all the same. *)
Theorem handleInput_pattern_matches_more_than_the_handle :
  forall a b c url,
    JS.RegExp (a ++ String "." b) <> None ->
    JS.line_terminator c = false ->
    plain url = true ->
    RichTextEditor.replace_uploaded [(a ++ String "." b, url)] (a ++ String c b) = Some url.
Proof.
  intros a b c url Hre Hc Hplain.
  cbn [RichTextEditor.replace_uploaded]. unfold JS.replace_RegExp_g.
  destruct (JS.RegExp (a ++ String "." b)) as [p|] eqn:Hp; [|congruence].
  f_equal.
  pose proof (RegExp_matches_any a b c p Hp Hc) as Hmatch.
  pose proof (RegExp_length _ p Hp) as Hlen.
  rewrite <- (length_app_dot a b c) in Hlen.
  destruct (a ++ String c b) as [|x rest] eqn:Hs.
  - destruct a; discriminate Hs.
  - cbn [JS.replace_scan]. rewrite Hmatch. rewrite Hlen.
    cbn [String.length]. rewrite <- Hs at 1 2.
    assert (Hlen' : String.length (a ++ String c b) = S (String.length rest))
      by (rewrite Hs; reflexivity).
    rewrite <- Hlen'. rewrite take_all, drop_all.
    rewrite GetSubstitution_plain by exact Hplain.
    rewrite replace_scan_skips.
    + cbn [JS.ToString]. clear. induction url; [reflexivity | cbn; now f_equal].
    + destruct p; [discriminate Hlen | reflexivity].
Qed.

Lemma handleInput_pattern_matches_more_than_the_handle_witness :
  JS.RegExp ("blob:https://admin" ++ String "." "example/3f2a") <> None /\
  JS.line_terminator "-" = false /\
  plain Scenario.durable = true /\
  RichTextEditor.replace_uploaded
    [("blob:https://admin" ++ String "." "example/3f2a", Scenario.durable)]
    ("blob:https://admin" ++ String "-" "example/3f2a") = Some Scenario.durable.
Proof.
  assert (H1 : JS.RegExp ("blob:https://admin" ++ String "." "example/3f2a") <> None)
    by (vm_compute; discriminate).
  split; [exact H1|]. split; [reflexivity|]. split; [reflexivity|].
  apply (handleInput_pattern_matches_more_than_the_handle "blob:https://admin" "example/3f2a"
           "-" Scenario.durable H1); reflexivity.
Defined.

(** ** The editors and their [value] *)

(** The content the image editor hands to the callback can come back as
    [value] without touching the editor: the document is not parsed
    again, nothing is notified. *)
Theorem RichTextEditorImg_echo_leaves_editor :
  forall parseHTML s v,
    In v (notified (effects (RichTextEditorImg.handleInput s))) ->
    Sync.RichTextEditorImg_valueEffect parseHTML v s = (normal tt, s, []).
Proof.
  intros parseHTML [[doc|] focused selected] v Hv; cbn in Hv; [|contradiction].
  destruct Hv as [<-|[]].
  unfold Sync.RichTextEditorImg_valueEffect, Sync.differs, bind, get.
  cbn [RichTextEditorImg.editorRef JS.value_eqb]. rewrite String.eqb_refl. reflexivity.
Qed.

Lemma RichTextEditorImg_echo_leaves_editor_witness :
  In (JS.Str (DOM.innerHTML [Scenario.paragraph; Scenario.selected_picture]))
     (notified (effects (RichTextEditorImg.handleInput Scenario.article))) /\
  Sync.RichTextEditorImg_valueEffect (fun _ => [])
    (JS.Str (DOM.innerHTML [Scenario.paragraph; Scenario.selected_picture])) Scenario.article
  = (normal tt, Scenario.article, []).
Proof.
  assert (H : In (JS.Str (DOM.innerHTML [Scenario.paragraph; Scenario.selected_picture]))
                (notified (effects (RichTextEditorImg.handleInput Scenario.article))))
    by (left; reflexivity).
  split; [exact H|].
  apply (RichTextEditorImg_echo_leaves_editor (fun _ => []) Scenario.article _ H).
Defined.

(** In RichTextEditor.tsx the content handed to the callback is the
    reconciled one; when it differs from the document and comes back as
    [value], the document is replaced by the parsed reconciled content. *)
Theorem RichTextEditor_echo_replaces_document :
  forall parseHTML rendered s doc content,
    RichTextEditor.editorRef s = Some doc ->
    RichTextEditor.replace_uploaded (RichTextEditor.uploadedImages rendered) (DOM.innerHTML doc)
    = Some content ->
    content <> DOM.innerHTML doc ->
    notified (effects (RichTextEditor.handleInput rendered s)) = [JS.Str content] /\
    RichTextEditor.editorRef
      (final_state (Sync.RichTextEditor_valueEffect parseHTML (JS.Str content) s))
    = Some (parseHTML content) /\
    RichTextEditor.uploadedImages
      (final_state (Sync.RichTextEditor_valueEffect parseHTML (JS.Str content) s))
    = RichTextEditor.uploadedImages s.
Proof.
  intros parseHTML rendered s doc content Hdoc Hrec Hne.
  unfold RichTextEditor.handleInput, Sync.RichTextEditor_valueEffect, Sync.differs,
    Sync.or_empty, bind, get.
  rewrite Hdoc, Hrec. cbn [JS.value_eqb JS.truthy JS.ToString].
  apply String.eqb_neq in Hne. rewrite Hne. cbn [negb when].
  destruct (String.eqb content EmptyString) eqn:E; cbn [negb].
  - apply String.eqb_eq in E. subst content. repeat split.
  - repeat split.
Qed.

Lemma RichTextEditor_echo_replaces_document_witness :
  let s := RichTextEditor.mkState
             (Some [DOM.Elem (DOM.mkElement 7 "img" [("src", DOM.plain Scenario.handle)]) []])
             true [(Scenario.handle, Scenario.durable)] in
  let content := "<img src=" ++ DOM.quot ++ Scenario.durable ++ DOM.quot ++ ">" in
  RichTextEditor.editorRef s
  = Some [DOM.Elem (DOM.mkElement 7 "img" [("src", DOM.plain Scenario.handle)]) []] /\
  notified (effects (RichTextEditor.handleInput s s)) = [JS.Str content].
Proof.
  cbv zeta. split; [reflexivity|].
  apply (RichTextEditor_echo_replaces_document (fun _ => [])
           (RichTextEditor.mkState
              (Some [DOM.Elem (DOM.mkElement 7 "img" [("src", DOM.plain Scenario.handle)]) []])
              true [(Scenario.handle, Scenario.durable)])
           (RichTextEditor.mkState
              (Some [DOM.Elem (DOM.mkElement 7 "img" [("src", DOM.plain Scenario.handle)]) []])
              true [(Scenario.handle, Scenario.durable)])
           [DOM.Elem (DOM.mkElement 7 "img" [("src", DOM.plain Scenario.handle)]) []]
           ("<img src=" ++ DOM.quot ++ Scenario.durable ++ DOM.quot ++ ">"));
    [reflexivity | vm_compute; reflexivity | vm_compute; discriminate].
Defined.

(** ** The image handlers and controls of the image editor *)

Lemma assoc_set_same {A} k (v : A) l : DOM.lookup k l = Some v -> DOM.assoc_set k v l = l.
Proof.
  induction l as [|[k' v'] l IH]; cbn; [discriminate|].
  destruct (String.eqb k k') eqn:E.
  - intros [= ->]. reflexivity.
  - intros H. rewrite (IH H). reflexivity.
Qed.

Lemma assoc_set_twice {A} k (v v' : A) l :
  DOM.assoc_set k v (DOM.assoc_set k v' l) = DOM.assoc_set k v l.
Proof.
  induction l as [|[k0 v0] l IH]; cbn.
  - rewrite String.eqb_refl. reflexivity.
  - destruct (String.eqb k k0) eqn:E; cbn; rewrite E; [reflexivity|].
    rewrite IH. reflexivity.
Qed.

Lemma forEach_idempotent sel f :
  (forall e, sel e = true -> sel (f e) = true /\ f (f e) = f e) ->
  forall n, DOM.forEach sel f (DOM.forEach sel f n) = DOM.forEach sel f n.
Proof.
  intros H. induction n as [d|e cs IH] using DOM.node_ind; [reflexivity|].
  cbn [DOM.forEach]. f_equal.
  - destruct (sel e) eqn:E; [|rewrite E; reflexivity].
    destruct (H e E) as [-> ->]. reflexivity.
  - rewrite map_map. induction IH as [|c cs Hc _ IHcs]; [reflexivity|].
    cbn [map]. rewrite Hc, IHcs. reflexivity.
Qed.

Lemma forEach_forEach sel1 f1 sel2 f2 n :
  DOM.forEach sel2 f2 (DOM.forEach sel1 f1 n)
  = DOM.forEach (fun _ => true)
      (fun e => let e1 := if sel1 e then f1 e else e in if sel2 e1 then f2 e1 else e1) n.
Proof.
  induction n as [d|e cs IH] using DOM.node_ind; [reflexivity|].
  cbn [DOM.forEach]. f_equal.
  rewrite map_map. induction IH as [|c cs Hc _ IHcs]; [reflexivity|].
  cbn [map]. rewrite Hc, IHcs. reflexivity.
Qed.

Lemma forEach_absent i f n :
  ~ In i (DOM.idents n) -> DOM.forEach (RichTextEditorImg.same_node i) f n = n.
Proof.
  induction n as [d|e cs IH] using DOM.node_ind; intros Hi; [reflexivity|].
  cbn [DOM.forEach DOM.idents] in *. f_equal.
  - unfold RichTextEditorImg.same_node. destruct (Nat.eqb (DOM.ident e) i) eqn:E; [|reflexivity].
    apply Nat.eqb_eq in E. exfalso. apply Hi. left. exact E.
  - assert (Hcs : ~ In i (flat_map DOM.idents cs)) by (intros H; apply Hi; right; exact H).
    clear Hi. induction IH as [|c cs Hc _ IHcs]; [reflexivity|].
    cbn [map flat_map] in *. rewrite Hc, IHcs; [reflexivity| |];
      intros H; apply Hcs; apply in_or_app; [right|left]; exact H.
Qed.

Lemma forEach_all_absent i f doc :
  ~ In i (DOM.idents_all doc) -> map (DOM.forEach (RichTextEditorImg.same_node i) f) doc = doc.
Proof.
  unfold DOM.idents_all. induction doc as [|c doc IH]; intros Hi; [reflexivity|].
  cbn [map flat_map] in *. rewrite forEach_absent, IH; [reflexivity| |];
    intros H; apply Hi; apply in_or_app; [right|left]; exact H.
Qed.

Lemma nodes_forEach sel f n :
  DOM.nodes (DOM.forEach sel f n) = map (edited sel f) (DOM.nodes n).
Proof.
  induction n as [d|e cs IH] using DOM.node_ind; [reflexivity|].
  cbn [DOM.forEach DOM.nodes map edited]. f_equal.
  induction IH as [|c cs Hc _ IHcs]; [reflexivity|].
  cbn [map flat_map]. rewrite map_app, Hc, IHcs. reflexivity.
Qed.

Lemma nodes_all_forEach sel f doc :
  DOM.nodes_all (map (DOM.forEach sel f) doc) = map (edited sel f) (DOM.nodes_all doc).
Proof.
  unfold DOM.nodes_all. induction doc as [|c doc IH]; [reflexivity|].
  cbn [map flat_map]. rewrite map_app, nodes_forEach, IH. reflexivity.
Qed.

Lemma set_up_twice e :
  let set_up := fun img =>
    DOM.setAttribute "data-resizable" "true" (DOM.style_set "cursor" "pointer" img) in
  set_up (set_up e) = set_up e.
Proof.
  cbv zeta. unfold DOM.setAttribute, DOM.style_set.
  cbn [DOM.attributes DOM.with_attributes DOM.ident DOM.tagName].
  rewrite (lookup_assoc_set_other "style" "data-resizable") by reflexivity.
  rewrite lookup_assoc_set, assoc_set_twice.
  set (D := DOM.declarations _).
  set (A1 := DOM.assoc_set "style" D (DOM.attributes e)).
  set (A2 := DOM.assoc_set "data-resizable" (DOM.plain "true") A1).
  assert (H : DOM.assoc_set "style" D A2 = A2).
  { apply assoc_set_same. unfold A2.
    rewrite (lookup_assoc_set_other "style" "data-resizable") by reflexivity.
    apply lookup_assoc_set. }
  rewrite H. unfold A2. rewrite assoc_set_twice. reflexivity.
Qed.

(** [setupImageHandlers] is idempotent and silent on the document:
    running it again (the mutation observer does, on every change of the
    child list) leaves every attribute of every node and the component
    state as the first run left them, and the callback is not called.  The
    image built by [insertImageAtCursor] is already set up.  (The listeners
    it registers are the events of [EditorEvents], not part of the
    document.) *)
Theorem setupImageHandlers_idempotent :
  forall s,
    RichTextEditorImg.setupImageHandlers (final_state (RichTextEditorImg.setupImageHandlers s))
    = (normal tt, final_state (RichTextEditorImg.setupImageHandlers s), []) /\
    effects (RichTextEditorImg.setupImageHandlers s) = [] /\
    forall fresh imageUrl display,
      DOM.forEach DOM.is_img
        (fun img => DOM.setAttribute "data-resizable" "true" (DOM.style_set "cursor" "pointer" img))
        (RichTextEditorImg.new_image fresh imageUrl display)
      = RichTextEditorImg.new_image fresh imageUrl display.
Proof.
  intros [[doc|] focused selected]; (split; [|split]); try reflexivity.
  unfold RichTextEditorImg.setupImageHandlers, RichTextEditorImg.forEach_in_editor,
    RichTextEditorImg.setEditor, bind, get, modify, final_state.
  cbn [RichTextEditorImg.editorRef RichTextEditorImg.isFocused RichTextEditorImg.selectedImage
       fst snd app].
  rewrite map_map.
  assert (H : map (fun n => DOM.forEach DOM.is_img
                     (fun img => DOM.setAttribute "data-resizable" "true"
                                   (DOM.style_set "cursor" "pointer" img))
                     (DOM.forEach DOM.is_img
                        (fun img => DOM.setAttribute "data-resizable" "true"
                                      (DOM.style_set "cursor" "pointer" img)) n)) doc
              = map (DOM.forEach DOM.is_img
                       (fun img => DOM.setAttribute "data-resizable" "true"
                                     (DOM.style_set "cursor" "pointer" img))) doc).
  { apply map_ext. intros n. apply forEach_idempotent. intros e He. split.
    - exact He.
    - apply set_up_twice. }
  rewrite H. reflexivity.
Qed.

Lemma on_selectedImage_run rendered f doc focused selected i :
  RichTextEditorImg.selectedImage rendered = Some i ->
  RichTextEditorImg.on_selectedImage rendered f
    (RichTextEditorImg.mkState (Some doc) focused selected)
  = (normal tt,
     RichTextEditorImg.mkState
       (Some (map (DOM.forEach (RichTextEditorImg.same_node i) f) doc)) focused selected,
     [call_onChange
        (JS.Str (DOM.innerHTML (map (DOM.forEach (RichTextEditorImg.same_node i) f) doc)))]).
Proof.
  intros Hi. unfold RichTextEditorImg.on_selectedImage. rewrite Hi. reflexivity.
Qed.

(** The size and alignment controls edit the style of the selected image
    and nothing else: in document order the nodes are those of before,
    with the elements that are the selected object restyled; the selection
    stays, and the callback receives the new content. *)
Theorem image_controls_edit_the_selected_image_only :
  forall rendered doc focused selected i,
    RichTextEditorImg.selectedImage rendered = Some i ->
    let s := RichTextEditorImg.mkState (Some doc) focused selected in
    let after (f : DOM.element -> DOM.element) (r : completion unit * RichTextEditorImg.state * trace) :=
      exists doc',
        r = (normal tt, RichTextEditorImg.mkState (Some doc') focused selected,
             [call_onChange (JS.Str (DOM.innerHTML doc'))]) /\
        DOM.nodes_all doc'
        = map (edited (RichTextEditorImg.same_node i) f) (DOM.nodes_all doc) in
    (forall sz, after (resized sz) (RichTextEditorImg.resizeSelectedImage rendered sz s)) /\
    (forall a, after (aligned a) (RichTextEditorImg.alignSelectedImage rendered a s)) /\
    after (aligned RichTextEditorImg.center) (RichTextEditorImg.clearImageFloat rendered s).
Proof.
  intros rendered doc focused selected i Hi s after.
  assert (H : forall f, after f (RichTextEditorImg.on_selectedImage rendered f s)).
  { intros f. unfold after, s. rewrite (on_selectedImage_run _ _ _ _ _ _ Hi).
    eexists. split; [reflexivity|]. apply nodes_all_forEach. }
  split; [|split].
  - intros sz. exact (H (resized sz)).
  - intros a.
    assert (E : RichTextEditorImg.alignSelectedImage rendered a
                = RichTextEditorImg.on_selectedImage rendered (aligned a)).
    { unfold RichTextEditorImg.alignSelectedImage. f_equal. }
    rewrite E. exact (H (aligned a)).
  - exact (H (aligned RichTextEditorImg.center)).
Qed.

Lemma image_controls_edit_the_selected_image_only_witness :
  RichTextEditorImg.selectedImage Scenario.article = Some 2 /\
  exists doc',
    RichTextEditorImg.resizeSelectedImage Scenario.article RichTextEditorImg.small
      Scenario.article
    = (normal tt, RichTextEditorImg.mkState (Some doc') true (Some 2),
       [call_onChange (JS.Str (DOM.innerHTML doc'))]) /\
    DOM.nodes_all doc'
    = map (edited (RichTextEditorImg.same_node 2) (resized RichTextEditorImg.small))
        (DOM.nodes_all [Scenario.paragraph; Scenario.selected_picture]).
Proof.
  split; [reflexivity|].
  exact (proj1 (image_controls_edit_the_selected_image_only Scenario.article
                  [Scenario.paragraph; Scenario.selected_picture] true (Some 2) 2 eq_refl)
               RichTextEditorImg.small).
Defined.

Lemma on_selectedImage_detached rendered f doc focused selected i :
  RichTextEditorImg.selectedImage rendered = Some i ->
  ~ In i (DOM.idents_all doc) ->
  RichTextEditorImg.on_selectedImage rendered f
    (RichTextEditorImg.mkState (Some doc) focused selected)
  = (normal tt, RichTextEditorImg.mkState (Some doc) focused selected,
     [call_onChange (JS.Str (DOM.innerHTML doc))]).
Proof.
  intros Hi Habsent. rewrite (on_selectedImage_run _ _ _ _ _ _ Hi).
  rewrite (forEach_all_absent _ _ _ Habsent). reflexivity.
Qed.

(** When the selected object is no longer in the document (its node was
    deleted or the document was parsed again), the toolbar is still shown
    and its controls leave the editor as it is, yet hand the unchanged
    content to the callback. *)
Theorem controls_on_a_detached_selection :
  forall rendered doc focused selected i,
    RichTextEditorImg.selectedImage rendered = Some i ->
    ~ In i (DOM.idents_all doc) ->
    let s := RichTextEditorImg.mkState (Some doc) focused selected in
    let unchanged := (normal tt, s, [call_onChange (JS.Str (DOM.innerHTML doc))]) in
    Rendered.image_toolbar rendered = true /\
    (forall sz, RichTextEditorImg.resizeSelectedImage rendered sz s = unchanged) /\
    (forall a, RichTextEditorImg.alignSelectedImage rendered a s = unchanged) /\
    RichTextEditorImg.clearImageFloat rendered s = unchanged.
Proof.
  intros rendered doc focused selected i Hi Habsent s unchanged.
  split; [unfold Rendered.image_toolbar; rewrite Hi; reflexivity|].
  split; [|split]; intros; apply (on_selectedImage_detached _ _ _ _ _ _ Hi Habsent).
Qed.

Lemma controls_on_a_detached_selection_witness :
  RichTextEditorImg.selectedImage Scenario.article = Some 2 /\
  ~ In 2 (DOM.idents_all [Scenario.paragraph]) /\
  RichTextEditorImg.clearImageFloat Scenario.article
    (RichTextEditorImg.mkState (Some [Scenario.paragraph]) true (Some 2))
  = (normal tt, RichTextEditorImg.mkState (Some [Scenario.paragraph]) true (Some 2),
     [call_onChange (JS.Str (DOM.innerHTML [Scenario.paragraph]))]).
Proof.
  assert (H : ~ In 2 (DOM.idents_all [Scenario.paragraph])).
  { cbn. intros [H|[]]. discriminate H. }
  split; [reflexivity|]. split; [exact H|].
  exact (proj2 (proj2 (proj2
           (controls_on_a_detached_selection Scenario.article [Scenario.paragraph] true
              (Some 2) 2 eq_refl H)))).
Defined.

Lemma idents_forEach sel f n :
  (forall e, DOM.ident (f e) = DOM.ident e) ->
  DOM.idents (DOM.forEach sel f n) = DOM.idents n.
Proof.
  intros Hf. induction n as [d|e cs IH] using DOM.node_ind; [reflexivity|].
  cbn [DOM.forEach DOM.idents]. f_equal.
  - destruct (sel e); [apply Hf | reflexivity].
  - induction IH as [|c cs Hc _ IHcs]; [reflexivity|].
    cbn [map flat_map]. rewrite Hc, IHcs. reflexivity.
Qed.

Lemma idents_all_forEach sel f doc :
  (forall e, DOM.ident (f e) = DOM.ident e) ->
  DOM.idents_all (map (DOM.forEach sel f) doc) = DOM.idents_all doc.
Proof.
  intros Hf. unfold DOM.idents_all. induction doc as [|c doc IH]; [reflexivity|].
  cbn [map flat_map]. rewrite (idents_forEach _ _ _ Hf), IH. reflexivity.
Qed.

Lemma RichTextEditorImg_upload_ok_state parseHTML file files blobUrl sel fresh fresh_br s s1 t1 url :
  RichTextEditorImg.insertImageAtCursor sel fresh fresh_br blobUrl s = (normal tt, s1, t1) ->
  final_state (RichTextEditorImg.handleImageUpload parseHTML (file :: files) blobUrl sel fresh
                 fresh_br idle (response true (data url)) s)
  = match RichTextEditorImg.editorRef s1 with
    | Some doc =>
        RichTextEditorImg.mkState
          (Some (map (DOM.forEach DOM.is_img
                        (fun img => DOM.setAttribute "data-resizable" "true"
                                      (DOM.style_set "cursor" "pointer" img)))
                   (parseHTML (JS.replace (DOM.innerHTML doc) blobUrl url))))
          (RichTextEditorImg.isFocused s1) (RichTextEditorImg.selectedImage s1)
    | None => s1
    end.
Proof.
  intros H. run_editor. rewrite H. cbn.
  destruct s1 as [[doc|] focused selected]; reflexivity.
Qed.

(** A successful upload parses the document again and keeps
    [selectedImage]: the image that was selected is then an object outside
    the new document, and the size and alignment controls no longer change
    anything. *)
Theorem upload_success_detaches_the_selected_image :
  forall parseHTML file files blobUrl sel fresh fresh_br s url i,
    sel <> DOM.no_range ->
    RichTextEditorImg.selectedImage s = Some i ->
    (forall html, ~ In i (DOM.idents_all (parseHTML html))) ->
    let s' := final_state
                (RichTextEditorImg.handleImageUpload parseHTML (file :: files) blobUrl sel
                   fresh fresh_br idle (response true (data url)) s) in
    RichTextEditorImg.selectedImage s' = Some i /\
    forall doc',
      RichTextEditorImg.editorRef s' = Some doc' ->
      ~ In i (DOM.idents_all doc') /\
      (forall sz, RichTextEditorImg.resizeSelectedImage s' sz s'
                  = (normal tt, s', [call_onChange (JS.Str (DOM.innerHTML doc'))])) /\
      (forall a, RichTextEditorImg.alignSelectedImage s' a s'
                 = (normal tt, s', [call_onChange (JS.Str (DOM.innerHTML doc'))])).
Proof.
  intros parseHTML file files blobUrl sel fresh fresh_br s url i Hsel Hi Hfresh s'.
  destruct (RichTextEditorImg_insert_run blobUrl sel fresh fresh_br s)
    as (r & s1 & t1 & Hrun & [-> | [_ Hno]] & Hkeep & _); [|contradiction].
  subst s'. rewrite (RichTextEditorImg_upload_ok_state _ _ _ _ _ _ _ _ _ _ _ Hrun).
  rewrite Hi in Hkeep.
  destruct s1 as [[doc|] focused selected]; cbn [RichTextEditorImg.selectedImage] in Hkeep;
    subst selected; cbn [RichTextEditorImg.editorRef RichTextEditorImg.isFocused
                         RichTextEditorImg.selectedImage];
    (split; [reflexivity|]); intros doc' Hdoc'; [|discriminate Hdoc'].
  injection Hdoc' as <-.
  assert (Habsent : ~ In i (DOM.idents_all
            (map (DOM.forEach DOM.is_img
                    (fun img => DOM.setAttribute "data-resizable" "true"
                                  (DOM.style_set "cursor" "pointer" img)))
                 (parseHTML (JS.replace (DOM.innerHTML doc) blobUrl url))))).
  { rewrite idents_all_forEach by reflexivity. apply Hfresh. }
  split; [exact Habsent|].
  set (new := map _ (parseHTML _)) in *.
  split; intros;
    exact (on_selectedImage_detached
             (RichTextEditorImg.mkState (Some new) focused (Some i)) _ new focused (Some i) i
             eq_refl Habsent).
Qed.

Lemma upload_success_detaches_the_selected_image_witness :
  Scenario.end_of_draft <> DOM.no_range /\
  RichTextEditorImg.selectedImage Scenario.article = Some 2 /\
  RichTextEditorImg.selectedImage
    (final_state
       (RichTextEditorImg.handleImageUpload
          (fun html => [DOM.Elem (DOM.mkElement 40 "p" []) [DOM.Text html]])
          [Scenario.photo] Scenario.handle Scenario.end_of_draft 7 8 idle
          (response true (data (JS.Str Scenario.durable))) Scenario.article))
  = Some 2.
Proof.
  assert (Hsel : Scenario.end_of_draft <> DOM.no_range) by discriminate.
  assert (Hfresh : forall html,
             ~ In 2 (DOM.idents_all [DOM.Elem (DOM.mkElement 40 "p" []) [DOM.Text html]])).
  { intros html [H|[]]. discriminate H. }
  split; [exact Hsel|]. split; [reflexivity|].
  exact (proj1 (upload_success_detaches_the_selected_image
                  (fun html => [DOM.Elem (DOM.mkElement 40 "p" []) [DOM.Text html]])
                  Scenario.photo [] Scenario.handle Scenario.end_of_draft 7 8
                  Scenario.article (JS.Str Scenario.durable) 2 Hsel eq_refl Hfresh)).
Defined.

(** ** Size and alignment compose *)





(** ** Clicking an image *)

Lemma filter_twice {A} (p : A -> bool) l : filter p (filter p l) = filter p l.
Proof.
  induction l as [|x l IH]; [reflexivity|].
  cbn [filter]. destruct (p x) eqn:E; [|exact IH].
  cbn [filter]. rewrite E, IH. reflexivity.
Qed.

Lemma filter_absent c l :
  existsb (String.eqb c) l = false -> filter (fun t => negb (String.eqb c t)) l = l.
Proof.
  induction l as [|x l IH]; [reflexivity|].
  cbn [existsb filter]. intros H. apply orb_false_iff in H. destruct H as [Hx Hl].
  rewrite Hx. cbn [negb]. rewrite (IH Hl). reflexivity.
Qed.

Lemma classList_remove_twice c e :
  DOM.classList_remove c (DOM.classList_remove c e) = DOM.classList_remove c e.
Proof.
  unfold DOM.classList_remove.
  destruct (DOM.lookup "class" (DOM.attributes e)) as [[v|l|l]|] eqn:E;
    try (rewrite E; reflexivity).
  cbn [DOM.attributes DOM.with_attributes]. rewrite lookup_assoc_set.
  unfold DOM.with_attributes. cbn [DOM.ident DOM.tagName].
  rewrite assoc_set_twice, filter_twice. reflexivity.
Qed.

Lemma contains_classList_remove c e : DOM.contains c (DOM.classList_remove c e) = false.
Proof.
  unfold DOM.classList_remove, DOM.contains, DOM.classes.
  destruct (DOM.lookup "class" (DOM.attributes e)) as [[v|l|l]|] eqn:E;
    try (rewrite E; reflexivity).
  cbn [DOM.attributes DOM.with_attributes]. rewrite lookup_assoc_set. clear E.
  induction l as [|x l IH]; [reflexivity|].
  cbn [filter]. destruct (String.eqb c x) eqn:Ex; cbn [negb]; [exact IH|].
  cbn [existsb]. rewrite Ex, IH. reflexivity.
Qed.

Lemma classList_add_twice c e :
  DOM.classList_add c (DOM.classList_add c e) = DOM.classList_add c e.
Proof.
  unfold DOM.classList_add at 1. rewrite contains_classList_add. reflexivity.
Qed.

Lemma add_remove_add c x :
  DOM.contains c x = false ->
  DOM.classList_add c (DOM.classList_remove c (DOM.classList_add c x)) = DOM.classList_add c x.
Proof.
  intros H. unfold DOM.classList_add at 2 3. rewrite H.
  unfold DOM.classList_remove. cbn [DOM.attributes DOM.with_attributes].
  rewrite lookup_assoc_set, assoc_set_twice.
  unfold DOM.contains in H.
  rewrite filter_app, (filter_absent _ _ H). cbn [filter]. rewrite String.eqb_refl.
  cbn [negb]. rewrite app_nil_r.
  unfold DOM.classList_add, DOM.contains, DOM.classes.
  cbn [DOM.attributes DOM.with_attributes DOM.ident DOM.tagName].
  rewrite lookup_assoc_set. fold (DOM.classes x). rewrite H.
  unfold DOM.with_attributes. cbn [DOM.ident DOM.tagName].
  rewrite assoc_set_twice. reflexivity.
Qed.

Lemma clicked_twice target e : clicked target (clicked target e) = clicked target e.
Proof.
  unfold clicked. cbv zeta.
  destruct (DOM.is_img e) eqn:Himg.
  - rewrite (same_node_ident target _ _ (ident_classList_remove _ e)).
    destruct (RichTextEditorImg.same_node target e) eqn:Hsame.
    + rewrite is_img_classList_add, is_img_classList_remove, Himg.
      rewrite (same_node_ident target e) by
        (rewrite ident_classList_remove, ident_classList_add; apply ident_classList_remove).
      rewrite Hsame. apply add_remove_add. apply contains_classList_remove.
    + rewrite is_img_classList_remove, Himg, classList_remove_twice.
      rewrite (same_node_ident target _ _ (ident_classList_remove _ e)), Hsame. reflexivity.
  - destruct (RichTextEditorImg.same_node target e) eqn:Hsame.
    + rewrite is_img_classList_add, Himg.
      rewrite (same_node_ident target _ _ (ident_classList_add _ e)), Hsame.
      apply classList_add_twice.
    + rewrite Himg, Hsame. reflexivity.
Qed.

(** A second click on the image that was just clicked changes nothing:
    the selection, the markers and every other attribute stay as the first
    click left them.  Neither click calls the callback. *)
Theorem handleImageClick_idempotent :
  forall target s,
    let s1 := final_state (RichTextEditorImg.handleImageClick target s) in
    RichTextEditorImg.handleImageClick target s1 = (normal tt, s1, []) /\
    RichTextEditorImg.selectedImage s1 = Some target /\
    effects (RichTextEditorImg.handleImageClick target s) = [].
Proof.
  intros target [[doc|] focused selected]; cbv zeta; (split; [|split]); try reflexivity.
  unfold RichTextEditorImg.handleImageClick, RichTextEditorImg.forEach_in_editor,
    RichTextEditorImg.setEditor, RichTextEditorImg.setSelectedImage, bind, get, modify,
    final_state.
  cbn [RichTextEditorImg.editorRef RichTextEditorImg.isFocused RichTextEditorImg.selectedImage
       fst snd app].
  rewrite !map_map.
  assert (H : forall n,
             DOM.forEach (RichTextEditorImg.same_node target)
               (DOM.classList_add RichTextEditorImg.image_selected)
               (DOM.forEach DOM.is_img (DOM.classList_remove RichTextEditorImg.image_selected) n)
             = DOM.forEach (fun _ => true) (clicked target) n).
  { intros n. apply forEach_forEach. }
  rewrite (map_ext _ _ (fun n => eq_trans (H _) (f_equal _ (H n)))) at 1.
  rewrite (map_ext _ _ H).
  rewrite (map_ext _ (DOM.forEach (fun _ => true) (clicked target))); [reflexivity|].
  intros n. apply forEach_idempotent. intros e _. split; [reflexivity|apply clicked_twice].
Qed.
